(** * Tsepepe: the libclang utilities

    A shallow embedding of three translation units of Tsepepe,

    - [finder.cpp]: the suitable place in class finder,
    - [pure_virtual_functions_extractor.cpp]: pure virtual functions to
      override declarations,
    - [full_function_declaration_expander.cpp]: the expander of function
      declarations,

    together with the properties their specification states about them.

    Clang is the front end of all three.  What the code asks of it (the
    next token after a location, the file offset of a location, the text
    of a source range, the printed form of a type) appears here as data
    of the AST nodes and as the fields of [SourceManager]. *)

From Stdlib Require Import String Ascii List NArith Bool Arith Lia.
Import ListNotations.

Open Scope list_scope.
Open Scope string_scope.

(** ** Outcomes of a call

    A call returns, throws [Tsepepe::BaseError], or leaves the behaviour
    the C++ standard defines (an iterator moved past the end of the
    string it walks). *)

Inductive outcome (A : Type) : Type :=
| Returns (a : A)
| Throws (what : string)
| UndefinedBehaviour.

Arguments Returns {A} a.
Arguments Throws {A} what.
Arguments UndefinedBehaviour {A}.

Definition bind {A B : Type} (c : outcome A) (k : A -> outcome B) : outcome B :=
  match c with
  | Returns a => k a
  | Throws what => Throws what
  | UndefinedBehaviour => UndefinedBehaviour
  end.

Declare Scope outcome_scope.
Delimit Scope outcome_scope with outcome.
Notation "x <- c ;; k" := (bind c (fun x => k))
  (at level 61, c at next level, right associativity) : outcome_scope.

(** ** The front end *)

Module Clang.

(** [clang::SourceLocation]: an opaque 32-bit identifier; the default
    constructed location has identifier 0 and is the invalid one. *)
Record SourceLocation : Set := { ID : N }.

Definition invalid_location : SourceLocation := {| ID := 0 |}.

Definition isValid (loc : SourceLocation) : bool := negb (ID loc =? 0)%N.

Record SourceRange : Set :=
  { getBegin : SourceLocation;
    getEnd : SourceLocation }.

Definition isInvalid (range : SourceRange) : bool :=
  negb (isValid (getBegin range) && isValid (getEnd range)).

(** The token kinds the code tells apart ([tok::semi], [tok::l_brace])
    and a few more to write token streams with. *)
Inductive TokenKind : Set :=
| semi | l_brace | r_brace | l_paren | r_paren | colon
| identifier | keyword | eof | unknown.

Definition TokenKind_eqb (a b : TokenKind) : bool :=
  match a, b with
  | semi, semi | l_brace, l_brace | r_brace, r_brace
  | l_paren, l_paren | r_paren, r_paren | colon, colon
  | identifier, identifier | keyword, keyword
  | eof, eof | unknown, unknown => true
  | _, _ => false
  end.

Record Token : Set :=
  { getKind : TokenKind;
    getLocation : SourceLocation }.

Definition token_is (tok : Token) (k : TokenKind) : bool := TokenKind_eqb (getKind tok) k.
Definition token_isNot (tok : Token) (k : TokenKind) : bool := negb (token_is tok k).

Inductive AccessSpecifier : Set := AS_public | AS_protected | AS_private | AS_none.

Definition AccessSpecifier_eqb (a b : AccessSpecifier) : bool :=
  match a, b with
  | AS_public, AS_public | AS_protected, AS_protected
  | AS_private, AS_private | AS_none, AS_none => true
  | _, _ => false
  end.

Inductive RefQualifierKind : Set := RQ_None | RQ_LValue | RQ_RValue.

(** The value of an [unsigned]. *)
Definition to_unsigned (n : N) : N := (n mod 2 ^ 32)%N.

(** [clang::SourceManager], with the lexer and the language options of
    the record folded in.  [fileOffset] and [spellingLineNumber] are
    read through [getFileOffset] and [getSpellingLineNumber] below,
    whose results are [unsigned].  [source_range_content_to_string] is
    the helper of [libclang_utils/misc_utils.hpp], which gives the
    source text of a range; the code here only calls it. *)
Record SourceManager : Type :=
  { findNextToken : SourceLocation -> option Token;
    fileOffset : SourceLocation -> N;
    spellingLineNumber : SourceLocation -> N;
    source_range_content_to_string : SourceRange -> string }.

Definition getFileOffset (sm : SourceManager) (loc : SourceLocation) : N :=
  to_unsigned (fileOffset sm loc).

Definition getSpellingLineNumber (sm : SourceManager) (loc : SourceLocation) : N :=
  to_unsigned (spellingLineNumber sm loc).

(** [Lexer::findNextToken] gives no token for a location that is not in
    any file, the invalid location among them. *)
Definition no_token_after_invalid (sm : SourceManager) : Prop :=
  forall loc, isValid loc = false -> findNextToken sm loc = None.

(** *** Types *)

Record TemplateSpecializationType : Set :=
  { (** [getTemplateName().print(os, policy, Qualified::Fully)] *)
    getTemplateName : string;
    (** each of [template_arguments()], printed *)
    template_arguments : list string }.

Record QualType : Set :=
  { (** [getTypePtr()->getAs<TemplateSpecializationType>()] *)
    getAs_TemplateSpecializationType : option TemplateSpecializationType;
    (** [getAsString(printing_policy)] *)
    getAsString : string }.

(** *** Declarations *)

Record Attr : Set :=
  { isStandardAttributeSyntax : bool;
    getRange : SourceRange }.

Record ParmVarDecl : Set :=
  { getType : QualType;
    parm_getQualifiedNameAsString : string }.

Record FunctionDecl : Set :=
  { getAccess : AccessSpecifier;
    isImplicit : bool;
    isPure : bool;
    getAttrs : list Attr;
    getReturnTypeSourceRange : SourceRange;
    getReturnType : QualType;
    getQualifiedNameAsString : string;
    parameters : list ParmVarDecl;
    getEndLoc : SourceLocation }.

(** A [CXXMethodDecl] is a [FunctionDecl]; [getParent] is kept as the
    qualified name of the record the method is declared in, the one
    thing the code reads from it. *)
Record CXXMethodDecl : Set :=
  { as_FunctionDecl :> FunctionDecl;
    isConst : bool;
    getRefQualifier : RefQualifierKind;
    getExceptionSpecSourceRange : SourceRange;
    getParent_getQualifiedNameAsString : string }.

(** What a [const FunctionDecl*] points to. *)
Inductive FunctionDeclPtr : Set :=
| to_FunctionDecl (f : FunctionDecl)
| to_CXXMethodDecl (m : CXXMethodDecl).

Definition pointee (function : FunctionDeclPtr) : FunctionDecl :=
  match function with
  | to_FunctionDecl f => f
  | to_CXXMethodDecl m => as_FunctionDecl m
  end.

Definition dynamic_cast_CXXMethodDecl (function : FunctionDeclPtr) : option CXXMethodDecl :=
  match function with
  | to_FunctionDecl _ => None
  | to_CXXMethodDecl m => Some m
  end.

(** [forallBases] lists the records [CXXRecordDecl::forallBases] hands
    to a callback that always answers [true], in the order of the
    calls. *)
#[warnings="-register-all"] Inductive CXXRecordDecl : Set :=
  Build_CXXRecordDecl
    { methods : list CXXMethodDecl;
      isStruct : bool;
      getBeginLoc : SourceLocation;
      getSourceRange : SourceRange;
      forallBases : list CXXRecordDecl }.

End Clang.

Import Clang.

(** ** [<algorithm>] and [std::string] *)

Module Std.

(** [std::ranges::find_if(first, last, pred)]: an iterator into a list
    is the part of the list from the iterator on, and the end iterator
    is the empty list. *)
Fixpoint find_if {A : Type} (pred : A -> bool) (range : list A) : list A :=
  match range with
  | [] => []
  | x :: rest => if pred x then range else find_if pred rest
  end.

(** [std::find(first, last, value)] over the characters of [s], with
    iterators as indices and [count = last - first]. *)
Fixpoint find_from (s : string) (first : N) (count : nat) (value : ascii) : N :=
  match count with
  | O => first
  | S count' =>
      match String.get (N.to_nat first) s with
      | Some c => if Ascii.eqb c value then first
                  else find_from s (first + 1)%N count' value
      | None => first
      end
  end.

Definition size (s : string) : N := N.of_nat (String.length s).

(** [std::find] between [std::next(begin, first)] and
    [std::next(begin, last)]; both iterators have to be in the string
    and in order. *)
Definition find (s : string) (first last : N) (value : ascii) : outcome N :=
  if ((first <=? last) && (last <=? size s))%N
  then Returns (find_from s first (N.to_nat (last - first)) value)
  else UndefinedBehaviour.

End Std.

(** ** [finder.cpp] *)

Module Finder.

Open Scope outcome_scope.

(** Declared in [common_types.hpp]; these are the two fields the code
    sets, and [offset] is an [unsigned]. *)
Record SuitablePublicMethodPlaceInCppFile : Set :=
  { offset : N;
    is_public_section_needed : bool }.

Definition newline : ascii := "010"%char.

Section SuitablePlaceInClassFinder.

Variable cpp_file_content : string.
Variable record : CXXRecordDecl.
Variable source_manager : SourceManager.

Definition is_public_explicit_method (method : CXXMethodDecl) : bool :=
  AccessSpecifier_eqb (getAccess method) AS_public && negb (isImplicit method).

Definition is_not_public_or_is_public_implicit_method (method : CXXMethodDecl) : bool :=
  negb (is_public_explicit_method method).

(** The [for] loop over the first chain: [it] runs from the first
    public method on, [last] is the method kept so far. *)
Fixpoint last_public_method_in_first_public_method_chain
    (last : CXXMethodDecl) (it : list CXXMethodDecl) : CXXMethodDecl :=
  match it with
  | [] => last
  | m :: rest =>
      if is_not_public_or_is_public_implicit_method m then last
      else last_public_method_in_first_public_method_chain m rest
  end.

Definition find_location_after_last_public_method_in_the_first_chain
  : option SourceLocation :=
  match Std.find_if is_public_explicit_method (methods record) with
  | [] => None
  | (first_public_method :: _) as it =>
      Some (getEndLoc
              (last_public_method_in_first_public_method_chain first_public_method it))
  end.

Definition unpack_source_location_from_token (token : option Token)
  : outcome SourceLocation :=
  match token with
  | None => Throws "Can't unpack token; token empty!"
  | Some tok =>
      let loc := getLocation tok in
      if isValid loc then Returns loc
      else Throws "Can't unpack token; token holds invalid location!"
  end.

(** [for (unsigned i{0}; i < 1000; ++i)], with [rounds = 1000 - i]. *)
Fixpoint skip_semis (rounds : nat) (current_location : SourceLocation) : SourceLocation :=
  match rounds with
  | O => current_location
  | S rounds' =>
      match findNextToken source_manager current_location with
      | None => current_location
      | Some tok =>
          if token_isNot tok semi then getLocation tok
          else skip_semis rounds' (getLocation tok)
      end
  end.

Definition end_location_of
    (first_token_after_begin_location : option Token) (begin_location : SourceLocation)
  : SourceLocation :=
  match first_token_after_begin_location with
  | Some tok => if token_is tok semi then skip_semis 1000 begin_location else begin_location
  | None => begin_location
  end.

Definition get_insert_offset_after_location (location : SourceLocation) : outcome N :=
  let first_token_after_begin_location := findNextToken source_manager location in
  begin_location <- unpack_source_location_from_token first_token_after_begin_location ;;
  let end_location := end_location_of first_token_after_begin_location begin_location in
  let begin_offset := getFileOffset source_manager begin_location in
  let end_offset := getFileOffset source_manager end_location in
  newline_place <- Std.find cpp_file_content begin_offset end_offset newline ;;
  if negb (newline_place =? end_offset)%N
  then Returns (to_unsigned (newline_place + 1))
  else Returns end_offset.

Definition find : outcome SuitablePublicMethodPlaceInCppFile :=
  let result :=
    match find_location_after_last_public_method_in_the_first_chain with
    | Some after_public_method => after_public_method
    | None => invalid_location
    end in
  let is_public_section_needed := false in
  offset <- get_insert_offset_after_location result ;;
  Returns {| offset := offset; is_public_section_needed := is_public_section_needed |}.

End SuitablePlaceInClassFinder.

(** The function returns on its first statement; the three rules that
    follow it in the source are not reached. *)
Definition find_suitable_place_in_class_for_public_method
    (cpp_file_content : string) (node : CXXRecordDecl) (source_manager : SourceManager)
  : outcome SuitablePublicMethodPlaceInCppFile :=
  find cpp_file_content node source_manager.

(** *** Behind the [return]

    The last of the three rules that no call reaches.  Its loop is
    [while (true)]: [rounds] bounds the iterations here, and [None]
    says that the bound was too small. *)
Fixpoint find_line_with_opening_bracket_from
    (source_manager : SourceManager) (rounds : nat) (location : SourceLocation)
  : option N :=
  match rounds with
  | O => None
  | S rounds' =>
      match findNextToken source_manager location with
      | None => Some (getSpellingLineNumber source_manager location)
      | Some token =>
          if TokenKind_eqb (getKind token) l_brace
          then Some (getSpellingLineNumber source_manager (getLocation token))
          else find_line_with_opening_bracket_from source_manager rounds' (getLocation token)
      end
  end.

Definition find_line_with_opening_bracket
    (rounds : nat) (record : CXXRecordDecl) (source_manager : SourceManager) : option N :=
  find_line_with_opening_bracket_from source_manager rounds (getBeginLoc record).

Definition opening_bracket_rule
    (rounds : nat) (node : CXXRecordDecl) (source_manager : SourceManager)
  : option SuitablePublicMethodPlaceInCppFile :=
  match find_line_with_opening_bracket rounds node source_manager with
  | Some line => Some {| offset := line; is_public_section_needed := negb (isStruct node) |}
  | None => None
  end.

End Finder.

(** ** [full_function_declaration_expander.cpp] *)

Module Expander.

(** Declared in [full_function_declaration_expander.hpp]; the code
    reads this one field. *)
Record FullFunctionDeclarationExpanderOptions : Set :=
  { ignore_attribute_specifiers : bool }.

(** Modelled from the spec: the options a call without the third
    argument runs with are declared in
    [full_function_declaration_expander.hpp]; the override declarations
    are synthesized with attributes included. *)
Definition default_options : FullFunctionDeclarationExpanderOptions :=
  {| ignore_attribute_specifiers := false |}.

Definition empty (s : string) : bool := (String.length s =? 0)%nat.

(** [join(begin, end, delim)], an accumulation from the first element. *)
Definition join_range (range : list string) (delim : string) : string :=
  match range with
  | [] => ""
  | init :: rest => fold_left (fun result elem => (result ++ delim) ++ elem) rest init
  end.

(** [join(string_vec, delim = ", ")] *)
Definition join (string_vec : list string) (delim : string) : string :=
  join_range string_vec delim.

Definition join_default (string_vec : list string) : string := join string_vec ", ".

(** [std::ranges::remove_if(range, pred)]: the elements left in front
    of the returned iterator. *)
Definition remove_if {A : Type} (pred : A -> bool) (range : list A) : list A :=
  filter (fun x => negb (pred x)) range.

Section Expander.

Variable source_manager : SourceManager.

Definition get_standard_attributes (node : FunctionDecl) : string :=
  let standard_attributes_as_strings :=
    fold_left
      (fun acc attr =>
         if isStandardAttributeSyntax attr then
           let attribute_as_string :=
             ("[[" ++ source_range_content_to_string source_manager (getRange attr))
               ++ "]]" in
           (acc ++ [attribute_as_string])%list
         else acc)
      (getAttrs node) [] in
  join standard_attributes_as_strings " ".

Definition stringify_template_specialization
    (template_spec_type : TemplateSpecializationType) : string :=
  let template_args_as_string := template_arguments template_spec_type in
  ((getTemplateName template_spec_type ++ "<") ++ join_default template_args_as_string)
    ++ ">".

Definition has_explicit_return_type (node : FunctionDecl) : bool :=
  let return_type_as_written_in_code :=
    source_range_content_to_string source_manager (getReturnTypeSourceRange node) in
  negb (empty return_type_as_written_in_code).

Definition get_return_type (node : FunctionDecl) : string :=
  if negb (has_explicit_return_type node) then ""
  else
    let ret_qual_type := getReturnType node in
    match getAs_TemplateSpecializationType ret_qual_type with
    | Some template_spec_type => stringify_template_specialization template_spec_type
    | None => getAsString ret_qual_type
    end.

Definition param_to_string (param : ParmVarDecl) : string :=
  let result := getAsString (getType param) in
  let name := parm_getQualifiedNameAsString param in
  if negb (empty name) then (result ++ " ") ++ name else result.

Definition get_parameters (node : FunctionDecl) : string :=
  let params_as_string := map param_to_string (parameters node) in
  ("(" ++ join_default params_as_string) ++ ")".

Definition get_ref_qualifier (node : CXXMethodDecl) : string :=
  match getRefQualifier node with
  | RQ_LValue => "&"
  | RQ_RValue => "&&"
  | RQ_None => ""
  end.

Definition get_noexcept_qualifier (node : CXXMethodDecl) : string :=
  let source_range := getExceptionSpecSourceRange node in
  if isInvalid source_range then ""
  else source_range_content_to_string source_manager source_range.

Definition fully_expand_function_declaration
    (function : FunctionDeclPtr) (options : FullFunctionDeclarationExpanderOptions)
  : string :=
  let result_parted : list string := [] in
  let result_parted :=
    if negb (ignore_attribute_specifiers options)
    then (result_parted ++ [get_standard_attributes (pointee function)])%list
    else result_parted in
  let result_parted := (result_parted ++ [get_return_type (pointee function)])%list in
  let result_parted :=
    (result_parted
       ++ [(getQualifiedNameAsString (pointee function)
              ++ get_parameters (pointee function))%string])%list in
  let result_parted :=
    match dynamic_cast_CXXMethodDecl function with
    | Some method =>
        (((result_parted ++ [if isConst method then "const" else ""])
            ++ [get_ref_qualifier method])
           ++ [get_noexcept_qualifier method])%list
    | None => result_parted
    end in
  join_range (remove_if empty result_parted) " ".

End Expander.

End Expander.

(** ** [<regex>]

    [std::regex_replace(text, std::regex{pattern}, "")] for the patterns
    that are made of ordinary characters and of groups of them.  Such a
    pattern matches one text only, the pattern without the parentheses
    of its groups; [regex_replace] copies [text] from left to right,
    leaves out each match it meets and goes on behind it. *)

Module Regex.

(** [starts_with literal s] is what follows [literal] at the head of
    [s]. *)
Fixpoint starts_with (literal s : string) : option string :=
  match literal, s with
  | EmptyString, _ => Some s
  | String a literal', String b s' =>
      if Ascii.eqb a b then starts_with literal' s' else None
  | String _ _, EmptyString => None
  end.

Fixpoint erase_from (rounds : nat) (literal s : string) : string :=
  match rounds with
  | O => s
  | S rounds' =>
      match s with
      | EmptyString => EmptyString
      | String c s' =>
          match starts_with literal s with
          | Some behind => erase_from rounds' literal behind
          | None => String c (erase_from rounds' literal s')
          end
      end
  end.

(** An empty match is replaced by nothing and leaves the text as it is. *)
Definition erase (literal text : string) : string :=
  match literal with
  | EmptyString => text
  | String _ _ => erase_from (String.length text) literal text
  end.

(** The characters ECMAScript gives a meaning to. *)
Definition is_special (c : ascii) : bool :=
  match c with
  | "^" | "$" | "\" | "." | "*" | "+" | "?" | "(" | ")"
  | "[" | "]" | "{" | "}" | "|" => true
  | _ => false
  end%char.

(** The text a pattern of ordinary characters and groups matches;
    [depth] counts the groups that are open. *)
Fixpoint literal_of (depth : nat) (pattern : string) : option string :=
  match pattern with
  | EmptyString => match depth with O => Some EmptyString | S _ => None end
  | String c rest =>
      if Ascii.eqb c "("%char then literal_of (S depth) rest
      else if Ascii.eqb c ")"%char then
        match depth with
        | O => None
        | S depth' => literal_of depth' rest
        end
      else if is_special c then None
      else option_map (String c) (literal_of depth rest)
  end.

(** What a [regex_replace] has to do on the patterns above. *)
Definition replaces_matches (regex_replace : string -> string -> string) : Prop :=
  forall text pattern literal,
    literal_of 0 pattern = Some literal ->
    regex_replace text pattern = erase literal text.

(** A [regex_replace] for the patterns above; a text is handed back
    unchanged for the others, on which this is not a model. *)
Definition regex_replace (text pattern : string) : string :=
  match literal_of 0 pattern with
  | Some literal => erase literal text
  | None => text
  end.

End Regex.

(** ** [pure_virtual_functions_extractor.cpp] *)

Module Extractor.

Import Expander.

Section Extractor.

(** [std::regex_replace(declaration, std::regex{pattern}, "")] *)
Variable regex_replace : string -> string -> string.
Variable source_manager : SourceManager.

Definition append_override_declaration
    (override_declarations : list string) (method : CXXMethodDecl) : list string :=
  let declaration :=
    fully_expand_function_declaration source_manager (to_CXXMethodDecl method)
      default_options in
  let interface_nesting_prefix := getParent_getQualifiedNameAsString method ++ "::" in
  let declaration := regex_replace declaration interface_nesting_prefix in
  let declaration := declaration ++ " override;" in
  (override_declarations ++ [declaration])%list.

Definition collect_override_declarations
    (override_declarations : list string) (record : CXXRecordDecl) : list string :=
  fold_left
    (fun override_declarations (method : CXXMethodDecl) =>
       if isPure method
       then append_override_declaration override_declarations method
       else override_declarations)
    (methods record) override_declarations.

Definition pure_virtual_functions_to_override_declarations (node : CXXRecordDecl)
  : list string :=
  let override_declarations : list string := [] in
  let override_declarations :=
    fold_left collect_override_declarations (forallBases node) override_declarations in
  collect_override_declarations override_declarations node.

End Extractor.

End Extractor.

(** ** The specification's words *)

Module Spec.

Definition nonempty (s : string) : bool := negb (String.eqb s "").

(** [occurs_in needle s]: [needle] is a substring of [s]. *)
Fixpoint occurs_in (needle s : string) : bool :=
  match Regex.starts_with needle s with
  | Some _ => true
  | None =>
      match s with
      | EmptyString => false
      | String _ s' => occurs_in needle s'
      end
  end.

Fixpoint ends_with (suffix s : string) : bool :=
  if String.eqb s suffix then true
  else match s with
       | EmptyString => false
       | String _ s' => ends_with suffix s'
       end.

Section Synthesize.

Variable source_manager : SourceManager.

Definition text_of (range : SourceRange) : string :=
  source_range_content_to_string source_manager range.

(** Every attribute in the standard syntax, its source text inside
    brackets, in declaration order, joined by spaces. *)
Definition standard_attributes (f : FunctionDecl) : string :=
  String.concat " "
    (map (fun attr => "[[" ++ text_of (getRange attr) ++ "]]")
       (filter isStandardAttributeSyntax (getAttrs f))).

(** Nothing without a written return type; a template specialization
    as [Name<arg1, arg2, ...>]; else the printed type. *)
Definition return_type (f : FunctionDecl) : string :=
  if String.eqb (text_of (getReturnTypeSourceRange f)) "" then ""
  else match getAs_TemplateSpecializationType (getReturnType f) with
       | Some t => getTemplateName t ++ "<" ++ String.concat ", " (template_arguments t) ++ ">"
       | None => getAsString (getReturnType f)
       end.

(** [<type> <name>], the name and its space left out when there is
    no name. *)
Definition parameter (p : ParmVarDecl) : string :=
  if String.eqb (parm_getQualifiedNameAsString p) "" then getAsString (getType p)
  else getAsString (getType p) ++ " " ++ parm_getQualifiedNameAsString p.

Definition name_and_parameter_list (f : FunctionDecl) : string :=
  getQualifiedNameAsString f
    ++ "(" ++ String.concat ", " (map parameter (parameters f)) ++ ")".

Definition const_qualifier (m : CXXMethodDecl) : string :=
  if isConst m then "const" else "".

Definition ref_qualifier (m : CXXMethodDecl) : string :=
  match getRefQualifier m with
  | RQ_LValue => "&"
  | RQ_RValue => "&&"
  | RQ_None => ""
  end.

(** The exception specification as written; clang gives an invalid
    range when none is written. *)
Definition exception_specification (m : CXXMethodDecl) : string :=
  if isInvalid (getExceptionSpecSourceRange m) then ""
  else text_of (getExceptionSpecSourceRange m).

Definition function_fragments (f : FunctionDecl) : list string :=
  [return_type f; name_and_parameter_list f].

Definition method_fragments (m : CXXMethodDecl) : list string :=
  [const_qualifier m; ref_qualifier m; exception_specification m].

Definition qualifier_fragments (function : FunctionDeclPtr) : list string :=
  match function with
  | to_FunctionDecl _ => []
  | to_CXXMethodDecl m => method_fragments m
  end.

Definition fragments (with_attributes : bool) (function : FunctionDeclPtr) : list string :=
  ((if with_attributes then [standard_attributes (pointee function)] else [])
     ++ function_fragments (pointee function)
     ++ qualifier_fragments function)%list.

Definition synthesize (with_attributes : bool) (function : FunctionDeclPtr) : string :=
  String.concat " " (filter nonempty (fragments with_attributes function)).

End Synthesize.

(** [f] with the attributes [attrs] in place of its own. *)
Definition with_attrs (attrs : list Attr) (f : FunctionDecl) : FunctionDecl :=
  {| getAccess := getAccess f;
     isImplicit := isImplicit f;
     isPure := isPure f;
     getAttrs := attrs;
     getReturnTypeSourceRange := getReturnTypeSourceRange f;
     getReturnType := getReturnType f;
     getQualifiedNameAsString := getQualifiedNameAsString f;
     parameters := parameters f;
     getEndLoc := getEndLoc f |}.

Definition carrying (attrs : list Attr) (function : FunctionDeclPtr) : FunctionDeclPtr :=
  match function with
  | to_FunctionDecl f => to_FunctionDecl (with_attrs attrs f)
  | to_CXXMethodDecl m =>
      to_CXXMethodDecl
        {| as_FunctionDecl := with_attrs attrs m;
           isConst := isConst m;
           getRefQualifier := getRefQualifier m;
           getExceptionSpecSourceRange := getExceptionSpecSourceRange m;
           getParent_getQualifiedNameAsString := getParent_getQualifiedNameAsString m |}
  end.

(** [s] has no opening of an attribute in it. *)
Definition no_attribute_opening (s : string) : Prop := occurs_in "[[" s = false.

End Spec.

(** ** A front end to run the code on

    A file is its text and the tokens a raw lexer cuts it into: runs of
    identifier characters, and every other character that is not white
    space on its own.  A valid location is a file offset plus one, read
    as a 32-bit value. *)

Module TokenStream.

Record RawToken : Set :=
  { raw_kind : TokenKind;
    raw_offset : N;
    raw_length : N }.

Definition is_identifier_char (c : ascii) : bool :=
  let n := nat_of_ascii c in
  ((48 <=? n) && (n <=? 57) || (65 <=? n) && (n <=? 90)
   || (97 <=? n) && (n <=? 122) || (n =? 95))%nat.

Definition is_space (c : ascii) : bool :=
  let n := nat_of_ascii c in
  ((n =? 32) || (9 <=? n) && (n <=? 13))%nat.

Definition punctuator (c : ascii) : TokenKind :=
  match c with
  | ";" => semi
  | "{" => l_brace
  | "}" => r_brace
  | "(" => l_paren
  | ")" => r_paren
  | ":" => colon
  | _ => unknown
  end%char.

Fixpoint identifier_length (s : string) : N :=
  match s with
  | EmptyString => 0
  | String c rest => if is_identifier_char c then 1 + identifier_length rest else 0
  end%N.

Fixpoint lex (content : string) (at_offset : N) (in_identifier : bool) : list RawToken :=
  match content with
  | EmptyString => []
  | String c rest =>
      if is_identifier_char c then
        if in_identifier then lex rest (at_offset + 1)%N true
        else {| raw_kind := identifier; raw_offset := at_offset;
                raw_length := identifier_length content |}
               :: lex rest (at_offset + 1)%N true
      else if is_space c then lex rest (at_offset + 1)%N false
      else {| raw_kind := punctuator c; raw_offset := at_offset; raw_length := 1 |}
             :: lex rest (at_offset + 1)%N false
  end.

Definition location_at (file_offset : N) : SourceLocation := {| ID := file_offset + 1 |}.

Definition offset_of (loc : SourceLocation) : N := to_unsigned (ID loc - 1).

(** The first token behind [file_offset], the end of the file when
    there is none. *)
Definition token_behind (tokens : list RawToken) (end_of_file : N) (file_offset : N)
  : Token :=
  match List.find (fun t => (file_offset <? raw_offset t)%N) tokens with
  | Some t => {| getKind := raw_kind t; getLocation := location_at (raw_offset t) |}
  | None => {| getKind := eof; getLocation := location_at end_of_file |}
  end.

Definition token_after (tokens : list RawToken) (end_of_file : N) (loc : SourceLocation)
  : option Token :=
  if isValid loc then Some (token_behind tokens end_of_file (offset_of loc)) else None.

(** The offset behind the token that starts at [file_offset]. *)
Definition end_of_token (tokens : list RawToken) (file_offset : N) : N :=
  match List.find (fun t => (raw_offset t =? file_offset)%N) tokens with
  | Some t => (file_offset + raw_length t)%N
  | None => file_offset
  end.

Fixpoint count_newlines (s : string) (upto : nat) : N :=
  match upto, s with
  | S upto', String c rest =>
      ((if Ascii.eqb c "010"%char then 1 else 0) + count_newlines rest upto')%N
  | _, _ => 0%N
  end.

(** Modelled from the spec: [Tsepepe::source_range_content_to_string]
    is defined in [misc_utils]; it gives the exact source text of a
    range, from its first token to the end of its last one, and nothing
    for a range that is not valid. *)
Definition range_text (content : string) (tokens : list RawToken) (range : SourceRange)
  : string :=
  if isInvalid range then ""
  else
    let first := offset_of (getBegin range) in
    let last := end_of_token tokens (offset_of (getEnd range)) in
    String.substring (N.to_nat first) (N.to_nat (last - first)) content.

Definition front_end (content : string) : SourceManager :=
  let tokens := lex content 0 false in
  {| findNextToken := token_after tokens (Std.size content);
     fileOffset := offset_of;
     spellingLineNumber := fun loc => (1 + count_newlines content (N.to_nat (offset_of loc)))%N;
     source_range_content_to_string := range_text content tokens |}.

(** The range from the token at [first] to the token at [last]. *)
Definition range_at (first last : N) : SourceRange :=
  {| getBegin := location_at first; getEnd := location_at last |}.

Definition no_range : SourceRange :=
  {| getBegin := invalid_location; getEnd := invalid_location |}.

End TokenStream.

(** ** The resolver in the specification's words *)

Module Resolver.

Import Finder.

(** [follows sm loc passed]: the tokens [passed] are the ones the lexer
    gives one after the other, starting behind [loc]. *)
Fixpoint follows (sm : SourceManager) (loc : SourceLocation) (passed : list Token) : Prop :=
  match passed with
  | [] => True
  | tok :: rest => findNextToken sm loc = Some tok /\ follows sm (getLocation tok) rest
  end.

(** The location of the last token passed, [loc] when none is. *)
Definition reached (loc : SourceLocation) (passed : list Token) : SourceLocation :=
  last (map getLocation passed) loc.

Definition is_semi (tok : Token) : Prop := token_is tok semi = true.

(** The source range of the class, from its first token to its closing
    brace, as file offsets. *)
Definition class_body_begin_offset (sm : SourceManager) (record : CXXRecordDecl) : N :=
  getFileOffset sm (getBegin (getSourceRange record)).

Definition class_body_end_offset (sm : SourceManager) (record : CXXRecordDecl) : N :=
  getFileOffset sm (getEnd (getSourceRange record)).

(** The tokens of a class: every method declared in it ends between
    the first token of the class and its closing brace, the lexer
    moves forward and does not jump over the closing brace, and the
    closing brace is no semicolon. *)
Record class_body_tokens (sm : SourceManager) (record : CXXRecordDecl) : Prop :=
  { methods_end_inside :
      forall m : CXXMethodDecl,
        In m (methods record) ->
        (class_body_begin_offset sm record <= getFileOffset sm (getEndLoc m)
         < class_body_end_offset sm record)%N;
    next_token_inside :
      forall loc tok,
        (getFileOffset sm loc < class_body_end_offset sm record)%N ->
        findNextToken sm loc = Some tok ->
        (getFileOffset sm loc < getFileOffset sm (getLocation tok)
         <= class_body_end_offset sm record)%N
        /\ (getFileOffset sm (getLocation tok) = class_body_end_offset sm record ->
            token_is tok semi = false) }.

(** A lexer that stays in the file: the methods of the class end in
    the file, and the token behind a place of the file is further on
    in the file, or at its end. *)
Record lexer_in_file (sm : SourceManager) (content : string) (record : CXXRecordDecl)
  : Prop :=
  { methods_end_in_file :
      forall m : CXXMethodDecl,
        In m (methods record) ->
        (getFileOffset sm (getEndLoc m) <= Std.size content)%N;
    next_token_in_file :
      forall loc tok,
        (getFileOffset sm loc <= Std.size content)%N ->
        findNextToken sm loc = Some tok ->
        (getFileOffset sm loc <= getFileOffset sm (getLocation tok)
         <= Std.size content)%N }.

(** [place] is the first newline of [content] in [[from, to)]. *)
Definition first_newline (content : string) (from to place : N) : Prop :=
  (from <= place < to)%N
  /\ String.get (N.to_nat place) content = Some newline
  /\ forall j, (from <= j < place)%N -> String.get (N.to_nat j) content <> Some newline.

Definition no_newline (content : string) (from to : N) : Prop :=
  forall j, (from <= j < to)%N -> String.get (N.to_nat j) content <> Some newline.

(** [result] is one past the first newline of [content] in
    [[from, to)], and [to] when there is none. *)
Definition past_first_newline (content : string) (from to result : N) : Prop :=
  (exists place, first_newline content from to place /\ result = (place + 1)%N)
  \/ (no_newline content from to /\ result = to).

(** The anchor: the location the skip over the semicolons reaches
    from the end of the chain. *)
Definition anchor (sm : SourceManager) (chain_end : SourceLocation) : option SourceLocation :=
  match findNextToken sm chain_end with
  | Some tok => Some (end_location_of sm (Some tok) (getLocation tok))
  | None => None
  end.

End Resolver.

(** ** The deriver in the specification's words *)

Module Deriver.

(** The records the methods are collected from: the bases in the
    order of the walk of the front end, then the class itself. *)
Definition visited (node : CXXRecordDecl) : list CXXRecordDecl :=
  (forallBases node ++ [node])%list.

(** Their pure virtual methods, record by record, in the order of
    declaration. *)
Definition pure_virtuals (node : CXXRecordDecl) : list CXXMethodDecl :=
  flat_map (fun record => filter (fun m : CXXMethodDecl => isPure m) (methods record))
    (visited node).

Definition interface_prefix (m : CXXMethodDecl) : string :=
  getParent_getQualifiedNameAsString m ++ "::".

Definition synthesized (sm : SourceManager) (m : CXXMethodDecl) : string :=
  Expander.fully_expand_function_declaration sm (to_CXXMethodDecl m)
    Expander.default_options.

Definition override_declaration
    (regex_replace : string -> string -> string) (sm : SourceManager) (m : CXXMethodDecl)
  : string :=
  regex_replace (synthesized sm m) (interface_prefix m) ++ " override;".

(** The text [pieces] are cut out of when [separator] stands between
    each two of them, and the text they make when put together. *)
Definition cut_at (separator : string) (pieces : list string) : string :=
  String.concat separator pieces.

Definition put_together (pieces : list string) : string :=
  String.concat EmptyString pieces.

End Deriver.

(** ** Checks on the token streams of [TokenStream] *)

Module Checks.

Import TokenStream Resolver.

(** The offsets below [bound]. *)
Definition offsets_below (bound : N) : list N :=
  map N.of_nat (seq 0 (N.to_nat bound)).

Definition token_of (content : string) (file_offset : N) : Token :=
  token_behind (lex content 0 false) (Std.size content) file_offset.

(** [class_body_tokens], decided. *)
Definition class_body_checked (content : string) (record : CXXRecordDecl) : bool :=
  let sm := front_end content in
  let first := class_body_begin_offset sm record in
  let last := class_body_end_offset sm record in
  forallb
    (fun m : CXXMethodDecl =>
       (first <=? getFileOffset sm (getEndLoc m))%N
       && (getFileOffset sm (getEndLoc m) <? last)%N)
    (methods record)
  && forallb
       (fun o =>
          let next := getFileOffset sm (getLocation (token_of content o)) in
          (o <? next)%N && (next <=? last)%N
          && (negb (next =? last)%N || negb (token_is (token_of content o) semi)))
       (offsets_below last).

(** [lexer_in_file], decided. *)
Definition lexer_in_file_checked (content : string) (record : CXXRecordDecl) : bool :=
  let sm := front_end content in
  forallb
    (fun m : CXXMethodDecl => (getFileOffset sm (getEndLoc m) <=? Std.size content)%N)
    (methods record)
  && forallb
       (fun o =>
          let next := getFileOffset sm (getLocation (token_of content o)) in
          (o <=? next)%N && (next <=? Std.size content)%N)
       (offsets_below (Std.size content + 1)).

End Checks.

(** ** Classes and declarations to run the code on *)

Module Examples.

Import TokenStream.

Definition nl : string := String "010"%char EmptyString.

Definition plain_type (printed : string) : QualType :=
  {| getAs_TemplateSpecializationType := None; getAsString := printed |}.

(** A function without attributes and parameters whose return type is
    written at [return_at] and whose last token is at [end_at]. *)
Definition function_at (access : AccessSpecifier) (pure : bool)
    (returns : string) (return_at : N) (qualified_name : string) (end_at : N)
  : FunctionDecl :=
  {| getAccess := access;
     isImplicit := false;
     isPure := pure;
     getAttrs := [];
     getReturnTypeSourceRange := range_at return_at return_at;
     getReturnType := plain_type returns;
     getQualifiedNameAsString := qualified_name;
     parameters := [];
     getEndLoc := location_at end_at |}.

Definition unqualified_method (parent : string) (f : FunctionDecl) : CXXMethodDecl :=
  {| as_FunctionDecl := f;
     isConst := false;
     getRefQualifier := RQ_None;
     getExceptionSpecSourceRange := no_range;
     getParent_getQualifiedNameAsString := parent |}.

(** A class without bases from its first token at [first_at] to its
    closing brace at [brace_at]. *)
Definition class_at (is_struct : bool) (first_at brace_at : N)
    (declared : list CXXMethodDecl) : CXXRecordDecl :=
  {| methods := declared;
     isStruct := is_struct;
     getBeginLoc := location_at first_at;
     getSourceRange := range_at first_at brace_at;
     forallBases := [] |}.

(** [[
struct S {
  void f();
  int x;
};
    ]] *)
Definition declared_method_source : string :=
  "struct S {" ++ nl ++ "  void f();" ++ nl ++ "  int x;" ++ nl ++ "};" ++ nl.

Definition declared_method_class : CXXRecordDecl :=
  class_at true 0 32
    [unqualified_method "S" (function_at AS_public false "void" 13 "S::f" 20)].

(** [[
struct S {
  void f() {}
  int x;
};
    ]] *)
Definition inline_method_source : string :=
  "struct S {" ++ nl ++ "  void f() {}" ++ nl ++ "  int x;" ++ nl ++ "};" ++ nl.

Definition inline_method_class : CXXRecordDecl :=
  class_at true 0 34
    [unqualified_method "S" (function_at AS_public false "void" 13 "S::f" 23)].

(** [[
class C {
  int x;
};
    ]] *)
Definition private_member_source : string :=
  "class C {" ++ nl ++ "  int x;" ++ nl ++ "};" ++ nl.

Definition private_member_class : CXXRecordDecl := class_at false 0 19 [].

(** [[
struct E {};
    ]] *)
Definition empty_struct_source : string := "struct E {};".

Definition empty_struct : CXXRecordDecl := class_at true 0 10 [].

(** [[
struct S { void f();;;; int x; };
    ]] *)
Definition semicolons_source : string := "struct S { void f();;;; int x; };".

Definition semicolons_class : CXXRecordDecl :=
  class_at true 0 31
    [unqualified_method "S" (function_at AS_public false "void" 11 "S::f" 18)].

(** [[
struct I { [[nodiscard]] virtual int size() const noexcept = 0; };
    ]] *)
Definition interface_source : string :=
  "struct I { [[nodiscard]] virtual int size() const noexcept = 0; };".

Definition size_method : CXXMethodDecl :=
  {| as_FunctionDecl :=
       {| getAccess := AS_public;
          isImplicit := false;
          isPure := true;
          getAttrs := [{| isStandardAttributeSyntax := true; getRange := range_at 13 13 |}];
          getReturnTypeSourceRange := range_at 33 33;
          getReturnType := plain_type "int";
          getQualifiedNameAsString := "I::size";
          parameters := [];
          getEndLoc := location_at 61 |};
     isConst := true;
     getRefQualifier := RQ_None;
     getExceptionSpecSourceRange := range_at 50 50;
     getParent_getQualifiedNameAsString := "I" |}.

Definition interface : CXXRecordDecl := class_at true 0 64 [size_method].

(** [[
namespace { struct I { virtual void run() = 0; }; }
    ]] *)
Definition unnamed_namespace_source : string :=
  "namespace { struct I { virtual void run() = 0; }; }".

Definition run_method : CXXMethodDecl :=
  unqualified_method "(anonymous namespace)::I"
    (function_at AS_public true "void" 31 "(anonymous namespace)::I::run" 44).

Definition unnamed_namespace_interface : CXXRecordDecl := class_at true 12 47 [run_method].

Definition quote : string := String (ascii_of_nat 34) EmptyString.

(** [[
struct A { [[deprecated("see AA::::f")]] virtual void f() = 0; };
    ]] *)
Definition deprecated_source : string :=
  "struct A { [[deprecated(" ++ quote ++ "see AA::::f" ++ quote
    ++ ")]] virtual void f() = 0; };".

Definition deprecated_method : CXXMethodDecl :=
  {| as_FunctionDecl :=
       {| getAccess := AS_public;
          isImplicit := false;
          isPure := true;
          getAttrs := [{| isStandardAttributeSyntax := true; getRange := range_at 13 37 |}];
          getReturnTypeSourceRange := range_at 49 49;
          getReturnType := plain_type "void";
          getQualifiedNameAsString := "A::f";
          parameters := [];
          getEndLoc := location_at 60 |};
     isConst := false;
     getRefQualifier := RQ_None;
     getExceptionSpecSourceRange := no_range;
     getParent_getQualifiedNameAsString := "A" |}.

Definition deprecated_interface : CXXRecordDecl := class_at true 0 63 [deprecated_method].

(** [[
struct A { virtual void tick() = 0; }; struct B { virtual void tick() = 0; }; struct D : A, B {};
    ]] *)
Definition two_bases_source : string :=
  "struct A { virtual void tick() = 0; }; struct B { virtual void tick() = 0; }; "
    ++ "struct D : A, B {};".

Definition base_A : CXXRecordDecl :=
  class_at true 0 36
    [unqualified_method "A" (function_at AS_public true "void" 19 "A::tick" 33)].

Definition base_B : CXXRecordDecl :=
  class_at true 39 75
    [unqualified_method "B" (function_at AS_public true "void" 58 "B::tick" 72)].

Definition derived_D : CXXRecordDecl :=
  {| methods := [];
     isStruct := true;
     getBeginLoc := location_at 78;
     getSourceRange := range_at 78 95;
     forallBases := [base_A; base_B] |}.

(** [struct S { void f()], 1500 semicolons and [ };] on one line. *)
Fixpoint semicolons (n : nat) : string :=
  match n with
  | O => EmptyString
  | S n' => String ";"%char (semicolons n')
  end.

Definition many_semicolons_source : string :=
  "struct S { void f()" ++ semicolons 1500 ++ " };".

Definition many_semicolons_class : CXXRecordDecl :=
  class_at true 0 1520
    [unqualified_method "S" (function_at AS_public false "void" 11 "S::f" 18)].

End Examples.

(** ** [finder.cpp]: the other functions behind the [return] *)

Module Unreached.

(** A pointer to a method, or [nullptr]. *)
Definition find_last_public_method_in_first_method_chain (record : CXXRecordDecl)
  : option CXXMethodDecl :=
  match Std.find_if Finder.is_public_explicit_method (methods record) with
  | [] => None
  | (first_public_method :: _) as it =>
      Some (Finder.last_public_method_in_first_public_method_chain first_public_method it)
  end.

Section PublicSection.

(** [Tsepepe::grep_file(content, RustRegexPattern{pattern})] of
    [file_grepper.hpp]: the numbers of the lines that match. *)
Variable grep_file : string -> string -> list N.

(** [Lexer::getLocForEndOfToken(loc, 0, source_manager, lang_opts)] *)
Variable getLocForEndOfToken : SourceLocation -> SourceLocation.

Variable cpp_file_content : string.
Variable record : CXXRecordDecl.
Variable source_manager : SourceManager.

Definition get_class_body_begin_end_lines : N * N :=
  let class_body_source_range := getSourceRange record in
  let class_body_past_end_loc := getEnd class_body_source_range in
  let class_body_end_loc := getLocForEndOfToken class_body_past_end_loc in
  let class_body_begin_line :=
    getSpellingLineNumber source_manager (getBegin class_body_source_range) in
  let class_body_end_line := getSpellingLineNumber source_manager class_body_end_loc in
  (class_body_begin_line, class_body_end_line).

Definition get_line_nums_with_public_access_specifier_declarations : list N :=
  grep_file cpp_file_content "public\s*:".

Definition is_line_within_class_body (line : N) : bool :=
  let class_body_line_range := get_class_body_begin_end_lines in
  ((fst class_body_line_range <=? line) && (line <=? snd class_body_line_range))%N.

Definition try_find_line_with_public_section : option N :=
  let lines_with_public_access_specifier_declarations :=
    get_line_nums_with_public_access_specifier_declarations in
  match Std.find_if is_line_within_class_body
          lines_with_public_access_specifier_declarations with
  | [] => None
  | line :: _ => Some line
  end.

End PublicSection.

End Unreached.

(** ** Words for the outcomes of the finder *)

Module Outcomes.

(** The location [find] hands to [get_insert_offset_after_location]:
    the end of the first chain, and the location that is not valid
    when there is no chain. *)
Definition start_location (record : CXXRecordDecl) : SourceLocation :=
  match Finder.find_location_after_last_public_method_in_the_first_chain record with
  | Some after_public_method => after_public_method
  | None => invalid_location
  end.

(** The two offsets the search for the newline runs between, for the
    token [tok] found behind the start. *)
Definition begin_offset_of (sm : SourceManager) (tok : Token) : N :=
  getFileOffset sm (getLocation tok).

Definition end_offset_of (sm : SourceManager) (tok : Token) : N :=
  getFileOffset sm (Finder.end_location_of sm (Some tok) (getLocation tok)).

Definition is_not_semi (tok : Token) : Prop := token_is tok semi = false.

Definition is_opening_brace (tok : Token) : Prop :=
  TokenKind_eqb (getKind tok) l_brace = true.

Definition is_no_opening_brace (tok : Token) : Prop :=
  TokenKind_eqb (getKind tok) l_brace = false.

Definition public_explicit (m : CXXMethodDecl) : Prop :=
  Finder.is_public_explicit_method m = true.

Definition not_public_explicit (m : CXXMethodDecl) : Prop :=
  Finder.is_public_explicit_method m = false.

End Outcomes.

(** ** Words for the white space of a text *)

Module Whitespace.

Definition space : ascii := " "%char.

Definition head_char (s : string) : option ascii :=
  match s with
  | EmptyString => None
  | String c _ => Some c
  end.

Fixpoint last_char (s : string) : option ascii :=
  match s with
  | EmptyString => None
  | String c EmptyString => Some c
  | String _ rest => last_char rest
  end.

Definition no_double_space (s : string) : Prop := Spec.occurs_in "  " s = false.

(** A text that is not empty, has no space at either end and no two
    spaces in a row. *)
Definition tidy (s : string) : Prop :=
  s <> EmptyString
  /\ head_char s <> Some space
  /\ last_char s <> Some space
  /\ no_double_space s.

End Whitespace.

(** ** More to run the code on *)

Module MoreExamples.

Import TokenStream Examples.

(** [Lexer::getLocForEndOfToken] over the tokens of [content]. *)
Definition loc_for_end_of_token (content : string) (loc : SourceLocation) : SourceLocation :=
  location_at (end_of_token (lex content 0 false) (offset_of loc)).

Definition is_blank (c : ascii) : bool :=
  (Ascii.eqb c " " || Ascii.eqb c "009")%char.

Fixpoint skip_blanks (s : string) : string :=
  match s with
  | String c rest => if is_blank c then skip_blanks rest else s
  | EmptyString => s
  end.

(** [s] has [public], blanks and a colon in it, in this order and with
    nothing between them. *)
Fixpoint has_public_label (s : string) : bool :=
  match Regex.starts_with "public" s with
  | Some behind =>
      match skip_blanks behind with
      | String ":" _ => true
      | _ => match s with
             | String _ rest => has_public_label rest
             | EmptyString => false
             end
      end
  | None => match s with
            | String _ rest => has_public_label rest
            | EmptyString => false
            end
  end%char.

(** The lines of [s], [line] being the characters of the line that is
    being read, in reverse. *)
Fixpoint lines_from (s : string) (line : string) : list string :=
  match s with
  | EmptyString => [line]
  | String c rest =>
      if Ascii.eqb c "010"%char then line :: lines_from rest EmptyString
      else lines_from rest (line ++ String c EmptyString)
  end.

Fixpoint numbers_of_labelled (lines : list string) (number : N) : list N :=
  match lines with
  | [] => []
  | line :: rest =>
      if has_public_label line then number :: numbers_of_labelled rest (number + 1)
      else numbers_of_labelled rest (number + 1)
  end.

(** Modelled from the spec: [Tsepepe::grep_file] is defined in
    [file_grepper]; given the text and a pattern it returns the numbers
    of the matching lines, counted from 1.  This one knows the pattern
    of the [public:] label only. *)
Definition grep_public_label (content pattern : string) : list N :=
  numbers_of_labelled (lines_from content EmptyString) 1.

(** [[
struct A {
public:
  int a;
};
class C {
  int x;
public :
  int y;
};
    ]] *)
Definition two_classes_source : string :=
  "struct A {" ++ nl ++ "public:" ++ nl ++ "  int a;" ++ nl ++ "};" ++ nl
    ++ "class C {" ++ nl ++ "  int x;" ++ nl ++ "public :" ++ nl ++ "  int y;" ++ nl
    ++ "};" ++ nl.

Definition second_class : CXXRecordDecl := class_at false 31 68 [].

(** [[
class A;
    ]] *)
Definition forward_declaration_source : string := "class A;".

(** [[
__attribute__((noreturn)) void stop();
    ]] *)
Definition gnu_attribute_source : string := "__attribute__((noreturn)) void stop();".

Definition stop_function : FunctionDecl :=
  {| getAccess := AS_none;
     isImplicit := false;
     isPure := false;
     getAttrs := [{| isStandardAttributeSyntax := false; getRange := range_at 15 15 |}];
     getReturnTypeSourceRange := range_at 26 26;
     getReturnType := plain_type "void";
     getQualifiedNameAsString := "stop";
     parameters := [];
     getEndLoc := location_at 36 |}.

(** [[
struct W {
  void a();
  void b();
private:
  void c();
public:
  void d();
};
    ]] *)
Definition two_chains_source : string :=
  "struct W {" ++ nl ++ "  void a();" ++ nl ++ "  void b();" ++ nl ++ "private:" ++ nl
    ++ "  void c();" ++ nl ++ "public:" ++ nl ++ "  void d();" ++ nl ++ "};" ++ nl.

Definition method_a : CXXMethodDecl :=
  unqualified_method "W" (function_at AS_public false "void" 13 "W::a" 20).
Definition method_b : CXXMethodDecl :=
  unqualified_method "W" (function_at AS_public false "void" 25 "W::b" 32).
Definition method_c : CXXMethodDecl :=
  unqualified_method "W" (function_at AS_private false "void" 46 "W::c" 53).
Definition method_d : CXXMethodDecl :=
  unqualified_method "W" (function_at AS_public false "void" 66 "W::d" 73).

Definition two_chains_class : CXXRecordDecl :=
  class_at true 0 76 [method_a; method_b; method_c; method_d].

(** [[
struct P { P(int x); };
    ]] *)
Definition constructor_source : string := "struct P { P(int x); };".

Definition constructor_of_P : CXXMethodDecl :=
  {| as_FunctionDecl :=
       {| getAccess := AS_public;
          isImplicit := false;
          isPure := false;
          getAttrs := [];
          getReturnTypeSourceRange := no_range;
          getReturnType := plain_type "void";
          getQualifiedNameAsString := "P::P";
          parameters :=
            [{| getType := plain_type "int"; parm_getQualifiedNameAsString := "x" |}];
          getEndLoc := location_at 18 |};
     isConst := false;
     getRefQualifier := RQ_None;
     getExceptionSpecSourceRange := no_range;
     getParent_getQualifiedNameAsString := "P" |}.

(** The text of [Examples.declared_method_source] with another member
    and a comment behind [int]. *)
Definition declared_method_source_changed : string :=
  "struct S {" ++ nl ++ "  void f();" ++ nl ++ "  int y; // more" ++ nl ++ "};" ++ nl.

End MoreExamples.

(** ** Words for the cut of a text at a literal *)

Module Cut.

(** [s] without its last character. *)
Fixpoint all_but_last (s : string) : string :=
  match s with
  | EmptyString => EmptyString
  | String c rest =>
      match rest with
      | EmptyString => EmptyString
      | String _ _ => String c (all_but_last rest)
      end
  end.

(** No occurrence of [literal] starts in [piece] when [literal] stands
    behind [piece]: such an occurrence would lie in [piece] and all of
    [literal] but its last character. *)
Definition none_starts_in (literal piece : string) : Prop :=
  Spec.occurs_in literal (piece ++ all_but_last literal) = false.

(** The pieces of a cut from left to right: each piece that has the
    literal behind it ends where the first occurrence of the literal in
    what is left of the text starts, and the last piece has no
    occurrence in it. *)
Fixpoint leftmost (literal : string) (pieces : list string) : Prop :=
  match pieces with
  | [] => False
  | piece :: rest =>
      match rest with
      | [] => Spec.occurs_in literal piece = false
      | _ :: _ => none_starts_in literal piece /\ leftmost literal rest
      end
  end.

Definition leftmost_cut (literal text : string) (pieces : list string) : Prop :=
  text = Deriver.cut_at literal pieces /\ leftmost literal pieces.

End Cut.

(** ** A token stream that goes back *)

Module Adversarial.

(** Behind the location of offset 20 the semicolon at offset 21, behind
    that an identifier at offset 5, and no token elsewhere. *)
Definition token_going_back (loc : SourceLocation) : option Token :=
  if (ID loc =? 21)%N
  then Some {| getKind := semi; getLocation := TokenStream.location_at 21 |}
  else if (ID loc =? 22)%N
       then Some {| getKind := identifier; getLocation := TokenStream.location_at 5 |}
       else None.

Definition lexer_going_back : SourceManager :=
  {| findNextToken := token_going_back;
     fileOffset := TokenStream.offset_of;
     spellingLineNumber := fun _ => 1%N;
     source_range_content_to_string := fun _ => EmptyString |}.

End Adversarial.

(** * Properties *)

(** ** [unsigned] values and [std::find] *)

Lemma bind_returns {A B : Type} (c : outcome A) (k : A -> outcome B) (b : B) :
  bind c k = Returns b -> exists a, c = Returns a /\ k a = Returns b.
Proof.
  destruct c as [a| |]; simpl; try discriminate.
  intro H. now exists a.
Qed.

Lemma to_unsigned_lt (n : N) : (to_unsigned n < 2 ^ 32)%N.
Proof. unfold to_unsigned. apply N.mod_lt. discriminate. Qed.

Lemma to_unsigned_small (n : N) : (n < 2 ^ 32)%N -> to_unsigned n = n.
Proof. intro H. unfold to_unsigned. now apply N.mod_small. Qed.

Lemma getFileOffset_lt (sm : SourceManager) (loc : SourceLocation) :
  (getFileOffset sm loc < 2 ^ 32)%N.
Proof. apply to_unsigned_lt. Qed.

Lemma get_none_length (s : string) (n : nat) :
  String.get n s = None -> String.length s <= n.
Proof.
  revert n. induction s as [|c s IH]; intros n H; simpl.
  - lia.
  - destruct n as [|n]; simpl in H; [discriminate|].
    apply IH in H. lia.
Qed.

Section StdFind.

Variable s : string.
Variable value : ascii.

Lemma find_from_range (count : nat) (first : N) :
  (first <= Std.find_from s first count value <= first + N.of_nat count)%N.
Proof.
  revert first. induction count as [|count IH]; intro first; simpl Std.find_from.
  - lia.
  - destruct (String.get (N.to_nat first) s) as [c|]; [|lia].
    destruct (Ascii.eqb c value); [lia|].
    specialize (IH (first + 1)%N). lia.
Qed.

Lemma find_from_before (count : nat) (first j : N) :
  (first <= j < Std.find_from s first count value)%N ->
  String.get (N.to_nat j) s <> Some value.
Proof.
  revert first. induction count as [|count IH]; intro first; simpl Std.find_from.
  - lia.
  - destruct (String.get (N.to_nat first) s) as [c|] eqn:Hget; [|lia].
    destruct (Ascii.eqb c value) eqn:Hc; [lia|].
    intros [Hlo Hhi].
    destruct (N.eq_dec j first) as [->|Hne].
    + rewrite Hget. intro Heq. injection Heq as ->.
      now rewrite Ascii.eqb_refl in Hc.
    + apply (IH (first + 1)%N). lia.
Qed.

Lemma find_from_found (count : nat) (first : N) :
  (first + N.of_nat count <= Std.size s)%N ->
  (Std.find_from s first count value < first + N.of_nat count)%N ->
  String.get (N.to_nat (Std.find_from s first count value)) s = Some value.
Proof.
  unfold Std.size.
  revert first. induction count as [|count IH]; intro first; simpl Std.find_from.
  - lia.
  - intros Hsize Hlt.
    destruct (String.get (N.to_nat first) s) as [c|] eqn:Hget.
    + destruct (Ascii.eqb c value) eqn:Hc.
      * apply Ascii.eqb_eq in Hc. now subst c.
      * apply IH; lia.
    + apply get_none_length in Hget. lia.
Qed.

End StdFind.

(** What [Std.find] returns: the first place of [value] between the two
    iterators, or the second iterator. *)
Lemma std_find_returns (s : string) (first last place : N) (value : ascii) :
  Std.find s first last value = Returns place ->
  (first <= place <= last)%N
  /\ (forall j, (first <= j < place)%N -> String.get (N.to_nat j) s <> Some value)
  /\ (place <> last -> String.get (N.to_nat place) s = Some value).
Proof.
  unfold Std.find.
  destruct ((first <=? last)%N && (last <=? Std.size s)%N) eqn:Hin; [|discriminate].
  apply andb_true_iff in Hin. destruct Hin as [Hle Hsize].
  apply N.leb_le in Hle. apply N.leb_le in Hsize.
  intro H. injection H as <-.
  pose proof (find_from_range s value (N.to_nat (last - first)) first) as Hrange.
  rewrite N2Nat.id in Hrange.
  repeat split; try lia.
  - intros j Hj. eapply find_from_before; eassumption.
  - intro Hne. apply find_from_found; rewrite N2Nat.id; lia.
Qed.

(** ** The first chain of public methods *)

Section FirstChain.

Import Finder.

Lemma find_if_head {A : Type} (pred : A -> bool) (range : list A) (x : A) (rest : list A) :
  Std.find_if pred range = x :: rest ->
  pred x = true /\ incl (x :: rest) range.
Proof.
  induction range as [|y range IH]; simpl; [discriminate|].
  destruct (pred y) eqn:Hy.
  - intro H. injection H as -> ->. split; [assumption|apply incl_refl].
  - intro H. destruct (IH H) as [Hx Hincl].
    split; [assumption|]. now apply incl_tl.
Qed.

Lemma find_if_nil {A : Type} (pred : A -> bool) (range : list A) :
  Std.find_if pred range = [] <-> forallb (fun x => negb (pred x)) range = true.
Proof.
  induction range as [|y range IH]; simpl; [tauto|].
  destruct (pred y); simpl; [split; discriminate|exact IH].
Qed.

Lemma last_public_method_in_chain (it : list CXXMethodDecl) (last : CXXMethodDecl) :
  In (last_public_method_in_first_public_method_chain last it) (last :: it).
Proof.
  revert last. induction it as [|m it IH]; intro last; simpl.
  - now left.
  - destruct (is_not_public_or_is_public_implicit_method m); [now left|].
    right. apply IH.
Qed.

(** The location the first rule starts from is the end of a method of
    the record. *)
Lemma chain_end_is_a_method_end (record : CXXRecordDecl) (loc : SourceLocation) :
  find_location_after_last_public_method_in_the_first_chain record = Some loc ->
  exists m : CXXMethodDecl, In m (methods record) /\ loc = getEndLoc m.
Proof.
  unfold find_location_after_last_public_method_in_the_first_chain.
  destruct (Std.find_if is_public_explicit_method (methods record))
    as [|first it] eqn:Hfind; [discriminate|].
  pose proof (last_public_method_in_chain (first :: it) first) as Hin.
  remember (last_public_method_in_first_public_method_chain first (first :: it)) as m.
  intro H. injection H as <-.
  apply find_if_head in Hfind. destruct Hfind as [_ Hincl].
  exists m. split; [|reflexivity].
  apply Hincl.
  destruct Hin as [<-|Hin]; [now left|exact Hin].
Qed.

(** No chain without a public method written in the class. *)
Lemma no_chain_without_public_method (record : CXXRecordDecl) :
  forallb (fun m => negb (is_public_explicit_method m)) (methods record) = true ->
  find_location_after_last_public_method_in_the_first_chain record = None.
Proof.
  intro H. apply find_if_nil in H.
  unfold find_location_after_last_public_method_in_the_first_chain.
  now rewrite H.
Qed.

End FirstChain.

(** ** The skip over the semicolons *)

Section TerminatorScan.

Import Finder Resolver.

Variable sm : SourceManager.

Lemma last_default {A : Type} (l : list A) (a d d' : A) :
  last (a :: l) d = last (a :: l) d'.
Proof.
  revert a. induction l as [|b l IH]; intro a; [reflexivity|].
  change (last (b :: l) d = last (b :: l) d'). apply IH.
Qed.

Lemma reached_cons (loc : SourceLocation) (tok : Token) (passed : list Token) :
  reached loc (tok :: passed) = reached (getLocation tok) passed.
Proof.
  unfold reached. destruct passed as [|tok' passed]; [reflexivity|].
  change (last (map getLocation (tok' :: passed)) loc
          = last (map getLocation (tok' :: passed)) (getLocation tok)).
  simpl map. apply last_default.
Qed.

(** The scan takes its tokens from the lexer one after the other, takes
    no more of them than it has rounds, and all it passes before the
    last are semicolons. *)
Lemma skip_semis_passes (rounds : nat) (loc : SourceLocation) :
  exists passed : list Token,
    length passed <= rounds
    /\ follows sm loc passed
    /\ Forall is_semi (removelast passed)
    /\ skip_semis sm rounds loc = reached loc passed.
Proof.
  revert loc. induction rounds as [|rounds IH]; intro loc; simpl skip_semis.
  - exists []. repeat split; auto.
  - destruct (findNextToken sm loc) as [tok|] eqn:Hnext.
    + destruct (token_isNot tok semi) eqn:Hkind.
      * exists [tok]. simpl. repeat split; auto. lia.
      * destruct (IH (getLocation tok)) as (passed & Hlen & Hfollows & Hsemis & Hskip).
        exists (tok :: passed). repeat split.
        -- simpl. lia.
        -- exact Hnext.
        -- exact Hfollows.
        -- destruct passed as [|tok' passed]; [constructor|].
           change (Forall is_semi (tok :: removelast (tok' :: passed))).
           constructor; [|exact Hsemis].
           unfold is_semi. unfold token_isNot in Hkind.
           now apply negb_false_iff in Hkind.
        -- rewrite reached_cons. exact Hskip.
    + exists []. repeat split; auto. simpl. lia.
Qed.

(** Inside a class the scan moves forward and stops at the closing
    brace at the latest. *)
Lemma skip_semis_inside (record : CXXRecordDecl) (rounds : nat) (loc : SourceLocation) :
  class_body_tokens sm record ->
  (getFileOffset sm loc < class_body_end_offset sm record)%N ->
  (getFileOffset sm loc <= getFileOffset sm (skip_semis sm rounds loc)
   <= class_body_end_offset sm record)%N.
Proof.
  intro Hbody. revert loc.
  induction rounds as [|rounds IH]; intros loc Hloc; simpl skip_semis.
  - lia.
  - destruct (findNextToken sm loc) as [tok|] eqn:Hnext; [|lia].
    destruct (next_token_inside sm record Hbody loc tok Hloc Hnext) as [Hin Hbrace].
    destruct (token_isNot tok semi) eqn:Hkind; [lia|].
    unfold token_isNot in Hkind. apply negb_false_iff in Hkind.
    assert (getFileOffset sm (getLocation tok) < class_body_end_offset sm record)%N
      as Hlt.
    { destruct (N.eq_dec (getFileOffset sm (getLocation tok))
                  (class_body_end_offset sm record)) as [Heq|Hne]; [|lia].
      apply Hbrace in Heq. congruence. }
    specialize (IH (getLocation tok) Hlt). lia.
Qed.

End TerminatorScan.

(** ** The place the finder returns *)

Section InsertOffset.

Import Finder Resolver.

Variable cpp_file_content : string.
Variable record : CXXRecordDecl.
Variable sm : SourceManager.

(** A call of [find] that returns has found a token with a valid
    location behind the location it started from, and a place for the
    newline between the two offsets. *)
Lemma find_returns (p : SuitablePublicMethodPlaceInCppFile) :
  find cpp_file_content record sm = Returns p ->
  exists (tok : Token) (place : N),
    let location :=
      match find_location_after_last_public_method_in_the_first_chain record with
      | Some after_public_method => after_public_method
      | None => invalid_location
      end in
    let begin_offset := getFileOffset sm (getLocation tok) in
    let end_offset :=
      getFileOffset sm (end_location_of sm (Some tok) (getLocation tok)) in
    findNextToken sm location = Some tok
    /\ isValid (getLocation tok) = true
    /\ Std.find cpp_file_content begin_offset end_offset newline = Returns place
    /\ offset p = (if (place =? end_offset)%N then end_offset else to_unsigned (place + 1))
    /\ is_public_section_needed p = false.
Proof.
  unfold find, get_insert_offset_after_location. intro H.
  apply bind_returns in H. destruct H as (place_offset & H & Hp).
  injection Hp as <-.
  apply bind_returns in H. destruct H as (begin_location & Hunpack & H).
  apply bind_returns in H. destruct H as (place & Hplace & H).
  unfold unpack_source_location_from_token in Hunpack.
  destruct (findNextToken sm _) as [tok|] eqn:Hnext; [|discriminate].
  destruct (isValid (getLocation tok)) eqn:Hvalid; [|discriminate].
  injection Hunpack as <-.
  exists tok, place. cbv zeta. cbn [offset is_public_section_needed].
  repeat split; try assumption.
  destruct (place =? _)%N; cbn [negb] in H; now injection H as <-.
Qed.

(** Without a public method written in the class, and with a lexer
    that has no token behind the invalid location, [find] throws. *)
Lemma find_throws_without_public_method :
  no_token_after_invalid sm ->
  find_location_after_last_public_method_in_the_first_chain record = None ->
  find cpp_file_content record sm = Throws "Can't unpack token; token empty!".
Proof.
  intros Hlexer Hchain.
  unfold find, get_insert_offset_after_location. rewrite Hchain.
  now rewrite (Hlexer invalid_location eq_refl).
Qed.

(** No call of [find] asks for a [public:] label. *)
Lemma find_never_needs_public_section (p : SuitablePublicMethodPlaceInCppFile) :
  find cpp_file_content record sm = Returns p ->
  is_public_section_needed p = false.
Proof.
  intro H. destruct (find_returns p H) as (tok & place & H'). apply H'.
Qed.

End InsertOffset.

(** C3.  The offset the resolver returns lies in the source range of the
    class, between the offset of its first token and the offset of its
    closing brace: for every class whose methods end inside the class
    and every lexer that moves forward through the tokens of the class,
    gives no token behind the invalid location and does not take the
    closing brace for a semicolon. *)
Theorem insertion_offset_within_class_body
    (cpp_file_content : string) (record : CXXRecordDecl) (sm : SourceManager)
    (p : Finder.SuitablePublicMethodPlaceInCppFile) :
  no_token_after_invalid sm ->
  Resolver.class_body_tokens sm record ->
  Finder.find_suitable_place_in_class_for_public_method cpp_file_content record sm
  = Returns p ->
  (Resolver.class_body_begin_offset sm record <= Finder.offset p
   <= Resolver.class_body_end_offset sm record)%N.
Proof.
  intros Hlexer Hbody Hfind.
  unfold Finder.find_suitable_place_in_class_for_public_method in Hfind.
  destruct (find_returns _ _ _ _ Hfind)
    as (tok & place & Hnext & _ & Hplace & Hoffset & _).
  destruct (Finder.find_location_after_last_public_method_in_the_first_chain record)
    as [chain_end|] eqn:Hchain.
  2: { rewrite (Hlexer invalid_location eq_refl) in Hnext. discriminate. }
  destruct (chain_end_is_a_method_end record chain_end Hchain) as (m & Hm & ->).
  pose proof (Resolver.methods_end_inside sm record Hbody m Hm) as Hend.
  destruct (Resolver.next_token_inside sm record Hbody _ tok (proj2 Hend) Hnext)
    as [Hbegin Hbrace].
  set (begin_offset := getFileOffset sm (getLocation tok)) in *.
  set (end_offset :=
         getFileOffset sm (Finder.end_location_of sm (Some tok) (getLocation tok))) in *.
  assert (begin_offset <= end_offset
          <= Resolver.class_body_end_offset sm record)%N as Hanchor.
  { subst end_offset. unfold Finder.end_location_of.
    destruct (token_is tok semi) eqn:Hsemi; [|fold begin_offset; lia].
    apply skip_semis_inside; [assumption|]. fold begin_offset.
    destruct (N.eq_dec begin_offset (Resolver.class_body_end_offset sm record))
      as [Heq|Hne]; [|lia].
    apply Hbrace in Heq. congruence. }
  apply std_find_returns in Hplace. destruct Hplace as (Hrange & _ & _).
  rewrite Hoffset.
  destruct (place =? end_offset)%N eqn:Hat.
  - lia.
  - apply N.eqb_neq in Hat.
    pose proof (getFileOffset_lt sm
                  (Finder.end_location_of sm (Some tok) (getLocation tok))) as Hbound.
    fold end_offset in Hbound.
    rewrite to_unsigned_small; lia.
Qed.

(** C4 at a class with a method defined in it: the end of the chain is
    the closing brace of the body of [f] at offset 23, the anchor is
    [int] at offset 27, the first newline between the two is at offset
    24, and the offset returned is 27, not 25. *)
Lemma newline_scan_not_from_chain_end :
  let content := Examples.inline_method_source in
  let record := Examples.inline_method_class in
  let sm := TokenStream.front_end content in
  exists chain_end anchor p,
    Finder.find_location_after_last_public_method_in_the_first_chain record = Some chain_end
    /\ Resolver.anchor sm chain_end = Some anchor
    /\ Finder.find_suitable_place_in_class_for_public_method content record sm = Returns p
    /\ ~ Resolver.past_first_newline content
           (getFileOffset sm chain_end) (getFileOffset sm anchor) (Finder.offset p).
Proof.
  cbv zeta.
  exists (TokenStream.location_at 23), (TokenStream.location_at 27),
    {| Finder.offset := 27; Finder.is_public_section_needed := false |}.
  repeat split; try (vm_compute; reflexivity).
  change (~ Resolver.past_first_newline Examples.inline_method_source 23 27 27).
  intros [(place & (Hrange & Hget & _) & Hplace)|[Hnone _]].
  - assert (place = 26%N) as -> by lia.
    vm_compute in Hget. discriminate.
  - apply (Hnone 24%N); [lia|]. vm_compute. reflexivity.
Qed.

(** C4, amended.  When the class has a first chain of public methods and
    the resolver returns, the lexer has a token behind the end of the
    chain, there is an anchor, no [public:] label is asked for, and the
    offset returned is one past the first newline between the offset of
    that first token and the offset of the anchor, and the offset of the
    anchor when there is no newline between them. *)
Theorem newline_scan_from_first_token
    (cpp_file_content : string) (record : CXXRecordDecl) (sm : SourceManager)
    (chain_end : SourceLocation) (p : Finder.SuitablePublicMethodPlaceInCppFile) :
  Finder.find_location_after_last_public_method_in_the_first_chain record = Some chain_end ->
  Finder.find_suitable_place_in_class_for_public_method cpp_file_content record sm
  = Returns p ->
  exists first_token anchor,
    findNextToken sm chain_end = Some first_token
    /\ Resolver.anchor sm chain_end = Some anchor
    /\ Finder.is_public_section_needed p = false
    /\ Resolver.past_first_newline cpp_file_content
         (getFileOffset sm (getLocation first_token)) (getFileOffset sm anchor)
         (Finder.offset p).
Proof.
  intros Hchain Hfind.
  unfold Finder.find_suitable_place_in_class_for_public_method in Hfind.
  destruct (find_returns _ _ _ _ Hfind)
    as (tok & place & Hnext & _ & Hplace & Hoffset & Hlabel).
  rewrite Hchain in Hnext.
  exists tok, (Finder.end_location_of sm (Some tok) (getLocation tok)).
  unfold Resolver.anchor. rewrite Hnext.
  repeat split; try assumption.
  set (begin_offset := getFileOffset sm (getLocation tok)) in *.
  set (end_offset :=
         getFileOffset sm (Finder.end_location_of sm (Some tok) (getLocation tok))) in *.
  apply std_find_returns in Hplace. destruct Hplace as (Hrange & Hbefore & Hat).
  rewrite Hoffset. unfold Resolver.past_first_newline.
  destruct (place =? end_offset)%N eqn:Heq.
  - apply N.eqb_eq in Heq. subst place. right. split; [exact Hbefore|reflexivity].
  - apply N.eqb_neq in Heq. left. exists place. split.
    + repeat split; try lia; auto.
    + pose proof (getFileOffset_lt sm
                    (Finder.end_location_of sm (Some tok) (getLocation tok))) as Hbound.
      fold end_offset in Hbound. apply to_unsigned_small. lia.
Qed.

(** The class of [Examples.declared_method_source]: the chain ends at
    the closing parenthesis of [f()], the scan runs from the semicolon
    behind it to [int], and the offset returned is the start of the
    line of [int]. *)
Lemma newline_scan_from_first_token_witness :
  let content := Examples.declared_method_source in
  let record := Examples.declared_method_class in
  let sm := TokenStream.front_end content in
  Finder.find_location_after_last_public_method_in_the_first_chain record
  = Some (TokenStream.location_at 20)
  /\ Finder.find_suitable_place_in_class_for_public_method content record sm
     = Returns {| Finder.offset := 23; Finder.is_public_section_needed := false |}
  /\ exists first_token anchor,
      findNextToken sm (TokenStream.location_at 20) = Some first_token
      /\ Resolver.anchor sm (TokenStream.location_at 20) = Some anchor
      /\ false = false
      /\ Resolver.past_first_newline content
           (getFileOffset sm (getLocation first_token)) (getFileOffset sm anchor) 23.
Proof.
  cbv zeta.
  split; [vm_compute; reflexivity|].
  split; [vm_compute; reflexivity|].
  apply (newline_scan_from_first_token
           Examples.declared_method_source Examples.declared_method_class
           (TokenStream.front_end Examples.declared_method_source)
           (TokenStream.location_at 20)
           {| Finder.offset := 23; Finder.is_public_section_needed := false |}).
  - vm_compute. reflexivity.
  - vm_compute. reflexivity.
Defined.

(** ** The token streams of [TokenStream] *)

Section TokenStreamFacts.

Import TokenStream Resolver Checks.

Variable content : string.

Lemma to_unsigned_idempotent (n : N) : to_unsigned (to_unsigned n) = to_unsigned n.
Proof. apply to_unsigned_small, to_unsigned_lt. Qed.

Lemma front_end_offset (loc : SourceLocation) :
  getFileOffset (front_end content) loc = offset_of loc.
Proof. apply to_unsigned_idempotent. Qed.

Lemma front_end_next (loc : SourceLocation) (tok : Token) :
  findNextToken (front_end content) loc = Some tok ->
  tok = token_of content (offset_of loc).
Proof.
  unfold front_end, token_of. cbn [findNextToken]. unfold token_after.
  destruct (isValid loc); [|discriminate].
  intro H. now injection H as <-.
Qed.

Lemma front_end_no_token_after_invalid : no_token_after_invalid (front_end content).
Proof.
  intros loc Hloc. unfold front_end. cbn [findNextToken]. unfold token_after.
  now rewrite Hloc.
Qed.

Lemma offsets_below_In (bound o : N) : (o < bound)%N -> In o (offsets_below bound).
Proof.
  intro H. unfold offsets_below.
  rewrite <- (N2Nat.id o). apply in_map. apply in_seq. lia.
Qed.

Lemma class_body_checked_sound (record : CXXRecordDecl) :
  class_body_checked content record = true ->
  class_body_tokens (front_end content) record.
Proof.
  unfold class_body_checked. intro H.
  apply andb_true_iff in H. destruct H as [Hmethods Htokens].
  rewrite forallb_forall in Hmethods. rewrite forallb_forall in Htokens.
  split.
  - intros m Hm. specialize (Hmethods m Hm).
    apply andb_true_iff in Hmethods. destruct Hmethods as [Hlo Hhi].
    apply N.leb_le in Hlo. apply N.ltb_lt in Hhi. lia.
  - intros loc tok Hloc Hnext.
    apply front_end_next in Hnext. subst tok.
    rewrite front_end_offset in *.
    specialize (Htokens (offset_of loc) (offsets_below_In _ _ Hloc)).
    cbv zeta in Htokens.
    apply andb_true_iff in Htokens. destruct Htokens as [Htokens Hbrace].
    apply andb_true_iff in Htokens. destruct Htokens as [Hlo Hhi].
    apply N.ltb_lt in Hlo. apply N.leb_le in Hhi.
    split; [lia|].
    intro Heq. apply orb_true_iff in Hbrace. destruct Hbrace as [Hne|Hkind].
    + apply negb_true_iff, N.eqb_neq in Hne. contradiction.
    + now apply negb_true_iff in Hkind.
Qed.

Lemma lexer_in_file_checked_sound (record : CXXRecordDecl) :
  lexer_in_file_checked content record = true ->
  lexer_in_file (front_end content) content record.
Proof.
  unfold lexer_in_file_checked. intro H.
  apply andb_true_iff in H. destruct H as [Hmethods Htokens].
  rewrite forallb_forall in Hmethods. rewrite forallb_forall in Htokens.
  split.
  - intros m Hm. apply N.leb_le. now apply Hmethods.
  - intros loc tok Hloc Hnext.
    apply front_end_next in Hnext. subst tok.
    rewrite front_end_offset in *.
    assert (offset_of loc < Std.size content + 1)%N as Hlt by lia.
    specialize (Htokens (offset_of loc) (offsets_below_In _ _ Hlt)).
    cbv zeta in Htokens.
    apply andb_true_iff in Htokens. destruct Htokens as [Hlo Hhi].
    apply N.leb_le in Hlo. apply N.leb_le in Hhi. lia.
Qed.

End TokenStreamFacts.

(** The class of [Examples.declared_method_source]: its range runs from
    offset 0 to the closing brace at offset 32, and the offset returned
    is 23. *)
Lemma insertion_offset_within_class_body_witness :
  let content := Examples.declared_method_source in
  let record := Examples.declared_method_class in
  let sm := TokenStream.front_end content in
  Finder.find_suitable_place_in_class_for_public_method content record sm
  = Returns {| Finder.offset := 23; Finder.is_public_section_needed := false |}
  /\ Resolver.class_body_begin_offset sm record = 0%N
  /\ Resolver.class_body_end_offset sm record = 32%N
  /\ (Resolver.class_body_begin_offset sm record <= 23
      <= Resolver.class_body_end_offset sm record)%N.
Proof.
  cbv zeta.
  split; [vm_compute; reflexivity|].
  split; [vm_compute; reflexivity|].
  split; [vm_compute; reflexivity|].
  apply (insertion_offset_within_class_body
           Examples.declared_method_source Examples.declared_method_class
           (TokenStream.front_end Examples.declared_method_source)
           {| Finder.offset := 23; Finder.is_public_section_needed := false |}).
  - apply front_end_no_token_after_invalid.
  - apply class_body_checked_sound. vm_compute. reflexivity.
  - vm_compute. reflexivity.
Defined.

(** ** Termination *)

Section InFile.

Import Finder Resolver.

Variable content : string.
Variable record : CXXRecordDecl.
Variable sm : SourceManager.
Hypothesis in_file : lexer_in_file sm content record.

Lemma skip_semis_in_file (rounds : nat) (loc : SourceLocation) :
  (getFileOffset sm loc <= Std.size content)%N ->
  (getFileOffset sm loc <= getFileOffset sm (skip_semis sm rounds loc)
   <= Std.size content)%N.
Proof.
  revert loc. induction rounds as [|rounds IH]; intros loc Hloc; simpl skip_semis.
  - lia.
  - destruct (findNextToken sm loc) as [tok|] eqn:Hnext; [|lia].
    pose proof (next_token_in_file sm content record in_file loc tok Hloc Hnext) as Hin.
    destruct (token_isNot tok semi); [lia|].
    specialize (IH (getLocation tok)). lia.
Qed.

(** With the tokens in the file, and in order, the scan for the newline
    stays in the text, and [find] returns or throws. *)
Lemma find_returns_or_throws :
  no_token_after_invalid sm ->
  (exists p, find content record sm = Returns p)
  \/ (exists what, find content record sm = Throws what).
Proof.
  intro Hlexer.
  destruct (find_location_after_last_public_method_in_the_first_chain record)
    as [chain_end|] eqn:Hchain.
  2: { right. eexists. now apply find_throws_without_public_method. }
  destruct (chain_end_is_a_method_end record chain_end Hchain) as (m & Hm & ->).
  pose proof (methods_end_in_file sm content record in_file m Hm) as Hend.
  unfold find, get_insert_offset_after_location. rewrite Hchain.
  destruct (findNextToken sm (getEndLoc m)) as [tok|] eqn:Hnext.
  2: { right. eexists. reflexivity. }
  unfold unpack_source_location_from_token.
  destruct (isValid (getLocation tok)).
  2: { right. eexists. reflexivity. }
  pose proof (next_token_in_file sm content record in_file _ tok Hend Hnext) as Hbegin.
  cbn [bind].
  set (begin_offset := getFileOffset sm (getLocation tok)) in *.
  set (end_offset := getFileOffset sm (end_location_of sm (Some tok) (getLocation tok))).
  assert (begin_offset <= end_offset <= Std.size content)%N as Hanchor.
  { subst end_offset. unfold end_location_of.
    destruct (token_is tok semi); [|fold begin_offset; lia].
    apply skip_semis_in_file. fold begin_offset. lia. }
  unfold Std.find.
  destruct (N.leb_spec begin_offset end_offset) as [_|Hgt]; [|lia].
  destruct (N.leb_spec end_offset (Std.size content)) as [_|Hgt]; [|lia].
  cbn [andb bind].
  left. destruct (negb _); eexists; reflexivity.
Qed.

End InFile.




(** With 1500 semicolons behind [f()], the first at offset 19, the scan
    stops at the semicolon at offset 1019, a thousand tokens on. *)
Lemma scan_stops_after_1000_rounds :
  let content := Examples.many_semicolons_source in
  let sm := TokenStream.front_end content in
  Resolver.anchor sm (TokenStream.location_at 18) = Some (TokenStream.location_at 1019)
  /\ Finder.find_suitable_place_in_class_for_public_method
       content Examples.many_semicolons_class sm
     = Returns {| Finder.offset := 1019; Finder.is_public_section_needed := false |}.
Proof. cbv zeta. split; vm_compute; reflexivity. Qed.

(** The loop of the rule behind the [return] has no bound: where the
    lexer has a token behind every location and none is an opening
    brace, no number of rounds is enough. *)
Lemma opening_bracket_loop_has_no_bound
    (sm : SourceManager) (rounds : nat) (location : SourceLocation) :
  (forall loc, exists tok,
        findNextToken sm loc = Some tok /\ TokenKind_eqb (getKind tok) l_brace = false) ->
  Finder.find_line_with_opening_bracket_from sm rounds location = None.
Proof.
  intro Hstream. revert location.
  induction rounds as [|rounds IH]; intro location; simpl; [reflexivity|].
  destruct (Hstream location) as (tok & -> & ->). apply IH.
Qed.

(** ** The rules behind the [return] *)

(** C1 at a class with a private member only: the resolver throws, and
    the last rule, which would give line 1 of the opening brace and ask
    for a [public:] label, is not reached. *)
Theorem opening_brace_rule_not_reached :
  let content := Examples.private_member_source in
  let record := Examples.private_member_class in
  let sm := TokenStream.front_end content in
  Finder.find_location_after_last_public_method_in_the_first_chain record = None
  /\ isStruct record = false
  /\ Finder.find_suitable_place_in_class_for_public_method content record sm
     = Throws "Can't unpack token; token empty!"
  /\ Finder.opening_bracket_rule 2 record sm
     = Some {| Finder.offset := 1; Finder.is_public_section_needed := true |}.
Proof. cbv zeta. repeat split; vm_compute; reflexivity. Qed.

(** C2 at the empty struct: the resolver throws. *)
Theorem empty_class_throws :
  let content := Examples.empty_struct_source in
  let record := Examples.empty_struct in
  let sm := TokenStream.front_end content in
  methods record = []
  /\ Finder.find_suitable_place_in_class_for_public_method content record sm
     = Throws "Can't unpack token; token empty!".
Proof. cbv zeta. split; vm_compute; reflexivity. Qed.

(** ** Strings *)

Lemma string_app_assoc (a b c : string) : (a ++ b) ++ c = a ++ b ++ c.
Proof. induction a as [|x a IH]; simpl; [reflexivity|]. now rewrite IH. Qed.

Lemma string_app_nil_r (a : string) : a ++ "" = a.
Proof. induction a as [|x a IH]; simpl; [reflexivity|]. now rewrite IH. Qed.

Lemma empty_eqb (s : string) : Expander.empty s = String.eqb s "".
Proof. now destruct s. Qed.

Lemma concat_app_head (sep a b : string) (rest : list string) :
  String.concat sep ((a ++ b) :: rest) = a ++ String.concat sep (b :: rest).
Proof.
  destruct rest as [|x rest]; simpl; [reflexivity|]. apply string_app_assoc.
Qed.

(** The accumulation of [join] is the concatenation with a separator. *)
Lemma join_range_concat (range : list string) (delim : string) :
  Expander.join_range range delim = String.concat delim range.
Proof.
  destruct range as [|init rest]; [reflexivity|].
  unfold Expander.join_range.
  revert init. induction rest as [|x rest IH]; intro init; [reflexivity|].
  cbn [fold_left]. rewrite IH.
  rewrite string_app_assoc, !concat_app_head. reflexivity.
Qed.

Lemma remove_if_empty (range : list string) :
  Expander.remove_if Expander.empty range = filter Spec.nonempty range.
Proof.
  unfold Expander.remove_if. apply filter_ext. intro s.
  unfold Spec.nonempty. now rewrite empty_eqb.
Qed.

(** ** The fragments of a declaration *)

Section Fragments.

Import Expander.

Variable sm : SourceManager.

Lemma standard_attributes_accumulated (attrs : list Attr) (acc : list string) :
  fold_left
    (fun acc attr =>
       if isStandardAttributeSyntax attr then
         (acc ++ [(("[[" ++ source_range_content_to_string sm (getRange attr))
                     ++ "]]")%string])%list
       else acc)
    attrs acc
  = (acc ++ map (fun attr => ("[[" ++ Spec.text_of sm (getRange attr) ++ "]]")%string)
            (filter isStandardAttributeSyntax attrs))%list.
Proof.
  revert acc. induction attrs as [|attr attrs IH]; intro acc; cbn [fold_left filter].
  - cbn [map]. now rewrite app_nil_r.
  - destruct (isStandardAttributeSyntax attr).
    + rewrite IH, <- app_assoc. cbn [map app].
      unfold Spec.text_of. now rewrite string_app_assoc.
    + apply IH.
Qed.

Lemma get_standard_attributes_spec (node : FunctionDecl) :
  get_standard_attributes sm node = Spec.standard_attributes sm node.
Proof.
  unfold get_standard_attributes, Spec.standard_attributes, join.
  rewrite join_range_concat, standard_attributes_accumulated. reflexivity.
Qed.

Lemma get_return_type_spec (node : FunctionDecl) :
  get_return_type sm node = Spec.return_type sm node.
Proof.
  unfold get_return_type, has_explicit_return_type, Spec.return_type, Spec.text_of.
  rewrite negb_involutive, empty_eqb.
  destruct (String.eqb _ ""); [reflexivity|].
  destruct (getAs_TemplateSpecializationType (getReturnType node)) as [t|]; [|reflexivity].
  unfold stringify_template_specialization, join_default, join.
  rewrite join_range_concat. now rewrite !string_app_assoc.
Qed.

Lemma param_to_string_spec (param : ParmVarDecl) :
  param_to_string param = Spec.parameter param.
Proof.
  unfold param_to_string, Spec.parameter. rewrite empty_eqb.
  destruct (String.eqb _ ""); cbn [negb]; [reflexivity|apply string_app_assoc].
Qed.

Lemma get_parameters_spec (node : FunctionDecl) :
  getQualifiedNameAsString node ++ get_parameters node
  = Spec.name_and_parameter_list node.
Proof.
  unfold get_parameters, Spec.name_and_parameter_list, join_default, join.
  rewrite join_range_concat, string_app_assoc.
  now rewrite (map_ext _ _ param_to_string_spec).
Qed.

(** The parts of the text, before the empty ones are removed. *)
Lemma result_parted_spec
    (function : FunctionDeclPtr) (options : FullFunctionDeclarationExpanderOptions) :
  fully_expand_function_declaration sm function options
  = String.concat " "
      (filter Spec.nonempty
         (Spec.fragments sm (negb (ignore_attribute_specifiers options)) function)).
Proof.
  unfold fully_expand_function_declaration, Spec.fragments.
  rewrite join_range_concat, remove_if_empty. do 2 f_equal.
  rewrite get_standard_attributes_spec, get_return_type_spec, get_parameters_spec.
  destruct function as [f|m]; cbn [dynamic_cast_CXXMethodDecl Spec.qualifier_fragments];
    destruct (negb (ignore_attribute_specifiers options)); reflexivity.
Qed.

End Fragments.

(** C7.  The text of a declaration is the join, with single spaces, of
    the fragments that are not empty, in the order: the standard
    attributes (unless the options leave them out), the return type,
    the qualified name with the parameter list in parentheses behind
    it, and for a method [const] if it is const, its ref-qualifier and
    its exception specification as written. *)
Theorem declaration_text_is_joined_fragments
    (sm : SourceManager) (function : FunctionDeclPtr)
    (options : Expander.FullFunctionDeclarationExpanderOptions) :
  Expander.fully_expand_function_declaration sm function options
  = Spec.synthesize sm (negb (Expander.ignore_attribute_specifiers options)) function.
Proof. apply result_parted_spec. Qed.

(** C10.  The text of a function that is no method is the join of its
    attributes (unless the options leave them out), its return type and
    its qualified name with the parameter list, and of nothing else. *)
Theorem free_function_has_no_qualifiers
    (sm : SourceManager) (f : FunctionDecl)
    (options : Expander.FullFunctionDeclarationExpanderOptions) :
  Expander.fully_expand_function_declaration sm (to_FunctionDecl f) options
  = String.concat " "
      (filter Spec.nonempty
         ((if Expander.ignore_attribute_specifiers options then []
           else [Spec.standard_attributes sm f])
            ++ [Spec.return_type sm f; Spec.name_and_parameter_list f])%list).
Proof.
  rewrite result_parted_spec. unfold Spec.fragments.
  cbn [pointee Spec.qualifier_fragments Spec.function_fragments].
  rewrite app_nil_r.
  destruct (Expander.ignore_attribute_specifiers options); reflexivity.
Qed.

(** ** Texts without the opening of an attribute *)

Section AttributeOpening.

Import Spec.

Lemma occurs_in_cons (needle : string) (c : ascii) (s : string) :
  occurs_in needle (String c s)
  = match Regex.starts_with needle (String c s) with
    | Some _ => true
    | None => occurs_in needle s
    end.
Proof. reflexivity. Qed.

Lemma no_opening_tail (c : ascii) (s : string) :
  no_attribute_opening (String c s) -> no_attribute_opening s.
Proof.
  unfold no_attribute_opening. rewrite occurs_in_cons.
  destruct (Regex.starts_with "[[" (String c s)); [discriminate|auto].
Qed.

(** Two texts without an opening have none when a space joins them. *)
Lemma no_opening_join (a b : string) :
  no_attribute_opening a -> no_attribute_opening b ->
  no_attribute_opening (a ++ " " ++ b).
Proof.
  induction a as [|c a IH]; intros Ha Hb.
  - exact Hb.
  - pose proof (IH (no_opening_tail c a Ha) Hb) as IH'.
    change (no_attribute_opening (String c (a ++ " " ++ b))).
    unfold no_attribute_opening in *. rewrite occurs_in_cons.
    destruct (Regex.starts_with "[[" (String c (a ++ " " ++ b))) eqn:Hhead;
      [|exact IH'].
    exfalso. rewrite occurs_in_cons in Ha.
    cbn [Regex.starts_with] in Hhead, Ha.
    destruct (Ascii.eqb "[" c); [|discriminate].
    destruct a as [|c' a].
    + cbn in Hhead. discriminate.
    + cbn [append Regex.starts_with] in Hhead, Ha.
      destruct (Ascii.eqb "[" c'); discriminate.
Qed.

Lemma no_opening_concat (fragments : list string) :
  Forall no_attribute_opening fragments ->
  no_attribute_opening (String.concat " " fragments).
Proof.
  induction fragments as [|x fragments IH]; intro H.
  - reflexivity.
  - inversion H as [|? ? Hx Hrest]; subst.
    destruct fragments as [|y fragments]; [exact Hx|].
    change (no_attribute_opening (x ++ " " ++ String.concat " " (y :: fragments))).
    apply no_opening_join; auto.
Qed.

Lemma Forall_filter {A : Type} (P : A -> Prop) (keep : A -> bool) (l : list A) :
  Forall P l -> Forall P (filter keep l).
Proof.
  rewrite !Forall_forall. intros H x Hx. apply filter_In in Hx. now apply H.
Qed.

Lemma fragments_without_attributes
    (sm : SourceManager) (attrs : list Attr) (function : FunctionDeclPtr) :
  fragments sm false (carrying attrs function) = fragments sm false function.
Proof. now destruct function. Qed.

End AttributeOpening.

(** C8.  With [ignore_attribute_specifiers] set the text does not depend
    on the attributes the declaration carries, and it has no opening of
    an attribute (two opening brackets in a row) in it unless the return
    type, the name with the parameter list or a qualifier has. *)
Theorem ignored_attributes_leave_no_fragment
    (sm : SourceManager) (function : FunctionDeclPtr)
    (options : Expander.FullFunctionDeclarationExpanderOptions) :
  Expander.ignore_attribute_specifiers options = true ->
  (forall attrs : list Attr,
      Expander.fully_expand_function_declaration sm (Spec.carrying attrs function) options
      = Expander.fully_expand_function_declaration sm function options)
  /\ (Forall Spec.no_attribute_opening
        (Spec.function_fragments sm (pointee function)
           ++ Spec.qualifier_fragments sm function)%list ->
      Spec.no_attribute_opening
        (Expander.fully_expand_function_declaration sm function options)).
Proof.
  intro Hignore. split.
  - intro attrs. rewrite !result_parted_spec, Hignore. cbn [negb].
    now rewrite fragments_without_attributes.
  - intro Hfragments. rewrite result_parted_spec, Hignore. cbn [negb].
    apply no_opening_concat, Forall_filter. exact Hfragments.
Qed.

(** The method [size] of [Examples.interface_source], which carries
    [[[nodiscard]]]. *)
Lemma ignored_attributes_leave_no_fragment_witness :
  let sm := TokenStream.front_end Examples.interface_source in
  let function := to_CXXMethodDecl Examples.size_method in
  let options := {| Expander.ignore_attribute_specifiers := true |} in
  Expander.fully_expand_function_declaration sm function Expander.default_options
  = "[[nodiscard]] int I::size() const noexcept"
  /\ Expander.fully_expand_function_declaration sm function options
     = "int I::size() const noexcept"
  /\ Spec.no_attribute_opening
       (Expander.fully_expand_function_declaration sm function options).
Proof.
  cbv zeta.
  split; [vm_compute; reflexivity|].
  split; [vm_compute; reflexivity|].
  apply (ignored_attributes_leave_no_fragment
           (TokenStream.front_end Examples.interface_source)
           (to_CXXMethodDecl Examples.size_method)
           {| Expander.ignore_attribute_specifiers := true |} eq_refl).
  vm_compute. repeat constructor.
Defined.

(** ** The override declarations *)

Section Collected.

Import Extractor Deriver.

Variable regex_replace : string -> string -> string.
Variable sm : SourceManager.

Lemma collect_override_declarations_spec
    (record : CXXRecordDecl) (override_declarations : list string) :
  collect_override_declarations regex_replace sm override_declarations record
  = (override_declarations
       ++ map (override_declaration regex_replace sm)
            (filter (fun m : CXXMethodDecl => isPure m) (methods record)))%list.
Proof.
  unfold collect_override_declarations.
  revert override_declarations.
  induction (methods record) as [|m ms IH]; intro acc; cbn [fold_left filter].
  - cbn [map]. now rewrite app_nil_r.
  - destruct (isPure m).
    + rewrite IH. unfold append_override_declaration.
      rewrite <- app_assoc. reflexivity.
    + apply IH.
Qed.

Lemma collected_from_records
    (records : list CXXRecordDecl) (override_declarations : list string) :
  fold_left (collect_override_declarations regex_replace sm) records override_declarations
  = (override_declarations
       ++ map (override_declaration regex_replace sm)
            (flat_map
               (fun record => filter (fun m : CXXMethodDecl => isPure m) (methods record))
               records))%list.
Proof.
  revert override_declarations.
  induction records as [|record records IH]; intro acc; cbn [fold_left flat_map].
  - cbn [map]. now rewrite app_nil_r.
  - rewrite IH, collect_override_declarations_spec, map_app, app_assoc. reflexivity.
Qed.

End Collected.

(** The accumulation over the bases and the class is a map over the pure
    virtual methods in the order of the walk. *)
Lemma collected_in_order
    (regex_replace : string -> string -> string) (sm : SourceManager)
    (node : CXXRecordDecl) :
  Extractor.pure_virtual_functions_to_override_declarations regex_replace sm node
  = map (Deriver.override_declaration regex_replace sm) (Deriver.pure_virtuals node).
Proof.
  unfold Extractor.pure_virtual_functions_to_override_declarations.
  rewrite collect_override_declarations_spec, collected_from_records.
  unfold Deriver.pure_virtuals, Deriver.visited.
  rewrite flat_map_app, map_app. cbn [flat_map app]. now rewrite app_nil_r.
Qed.

(** C6.  The override declarations are those of the pure virtual methods
    of the bases, in the order the front end walks them, and then of the
    class itself, the methods of each record in the order of their
    declaration; there is one entry for each of these methods, so a
    function that is pure virtual in two bases has two. *)
Theorem override_declarations_in_visitation_order
    (regex_replace : string -> string -> string) (sm : SourceManager)
    (node : CXXRecordDecl) :
  Extractor.pure_virtual_functions_to_override_declarations regex_replace sm node
  = map (Deriver.override_declaration regex_replace sm) (Deriver.pure_virtuals node)
  /\ length (Extractor.pure_virtual_functions_to_override_declarations regex_replace sm node)
     = length (Deriver.pure_virtuals node).
Proof.
  pose proof (collected_in_order regex_replace sm node) as Heq.
  split; [exact Heq|]. rewrite Heq. apply length_map.
Qed.

(** Two bases that each declare [void tick()] pure virtual give two
    entries. *)
Lemma two_bases_two_entries :
  Extractor.pure_virtual_functions_to_override_declarations
    Regex.regex_replace (TokenStream.front_end Examples.two_bases_source) Examples.derived_D
  = ["void tick() override;"; "void tick() override;"].
Proof. vm_compute. reflexivity. Qed.

(** ** What a pass of [regex_replace] leaves *)

Section Erase.

Import Regex Deriver Spec.

Lemma starts_with_some (literal s behind : string) :
  starts_with literal s = Some behind -> s = literal ++ behind.
Proof.
  revert s. induction literal as [|a literal IH]; intros s H.
  - simpl in H. now injection H as ->.
  - destruct s as [|b s]; simpl in H; [discriminate|].
    destruct (Ascii.eqb a b) eqn:Hab; [|discriminate].
    apply Ascii.eqb_eq in Hab. subst b. simpl. f_equal. now apply IH.
Qed.

Lemma starts_with_app (literal s behind more : string) :
  starts_with literal s = Some behind ->
  starts_with literal (s ++ more) = Some (behind ++ more).
Proof.
  revert s. induction literal as [|a literal IH]; intros s H.
  - simpl in H. injection H as ->. reflexivity.
  - destruct s as [|b s]; simpl in H; [discriminate|].
    simpl. destruct (Ascii.eqb a b); [|discriminate]. now apply IH.
Qed.

Lemma starts_with_none_app (literal s more : string) :
  starts_with literal (s ++ more) = None -> starts_with literal s = None.
Proof.
  intro H. destruct (starts_with literal s) as [behind|] eqn:Hs; [|reflexivity].
  rewrite (starts_with_app _ _ _ more Hs) in H. discriminate.
Qed.

Lemma append_length (a b : string) :
  String.length (a ++ b) = String.length a + String.length b.
Proof. induction a as [|c a IH]; simpl; [reflexivity|]. now rewrite IH. Qed.

Lemma cut_at_cons (separator first : string) (rest : list string) :
  cut_at separator (first :: rest)
  = first ++ match rest with
             | [] => EmptyString
             | _ :: _ => separator ++ cut_at separator rest
             end.
Proof.
  destruct rest; simpl; [|reflexivity]. now rewrite string_app_nil_r.
Qed.

Lemma cut_at_String (separator : string) (c : ascii) (first : string) (rest : list string) :
  cut_at separator (String c first :: rest) = String c (cut_at separator (first :: rest)).
Proof. now rewrite !cut_at_cons. Qed.

Variable literal : string.
Hypothesis literal_not_empty : literal <> EmptyString.

Lemma no_occurrence_in_empty : occurs_in literal EmptyString = false.
Proof. destruct literal; [contradiction|reflexivity]. Qed.

End Erase.

Lemma ends_with_app (suffix s : string) : Spec.ends_with suffix (s ++ suffix) = true.
Proof.
  induction s as [|c s IH].
  - destruct suffix; simpl; [reflexivity|].
    now rewrite Ascii.eqb_refl, String.eqb_refl.
  - cbn [append Spec.ends_with].
    destruct (String.eqb (String c (s ++ suffix)) suffix); [reflexivity|exact IH].
Qed.

Lemma regex_replace_replaces_matches : Regex.replaces_matches Regex.regex_replace.
Proof. intros text pattern literal H. unfold Regex.regex_replace. now rewrite H. Qed.

Lemma interface_prefix_not_empty (m : CXXMethodDecl) :
  Deriver.interface_prefix m <> EmptyString.
Proof.
  unfold Deriver.interface_prefix.
  destruct (getParent_getQualifiedNameAsString m); discriminate.
Qed.

(** C5 at two interfaces.  For the interface of an unnamed namespace
    the qualified name has parentheses in it, the pattern made of it
    matches nothing in the text, and the entry keeps the prefix.  For
    the interface [A] with [AA::::f] in the text of an attribute, taking
    [A::] out of that text leaves [A::] there. *)
Lemma override_declaration_keeps_prefix :
  (let sm := TokenStream.front_end Examples.unnamed_namespace_source in
   let entry := "void (anonymous namespace)::I::run() override;" in
   Extractor.pure_virtual_functions_to_override_declarations
     Regex.regex_replace sm Examples.unnamed_namespace_interface = [entry]
   /\ Deriver.interface_prefix Examples.run_method = "(anonymous namespace)::I::"
   /\ Spec.occurs_in (Deriver.interface_prefix Examples.run_method) entry = true)
  /\ (let sm := TokenStream.front_end Examples.deprecated_source in
      let entry :=
        "[[deprecated(" ++ Examples.quote ++ "see A::f" ++ Examples.quote
          ++ ")]] void f() override;" in
      Deriver.synthesized sm Examples.deprecated_method
      = "[[deprecated(" ++ Examples.quote ++ "see AA::::f" ++ Examples.quote
          ++ ")]] void A::f()"
      /\ Extractor.pure_virtual_functions_to_override_declarations
           Regex.regex_replace sm Examples.deprecated_interface = [entry]
      /\ Deriver.interface_prefix Examples.deprecated_method = "A::"
      /\ Spec.occurs_in (Deriver.interface_prefix Examples.deprecated_method) entry = true).
Proof. cbv zeta. repeat split; vm_compute; reflexivity. Qed.

(** * More properties of the code *)

(** ** [std::ranges::find_if] *)

Lemma find_if_split {A : Type} (pred : A -> bool) (range : list A) (x : A) (rest : list A) :
  Std.find_if pred range = x :: rest ->
  exists before,
    range = (before ++ x :: rest)%list
    /\ Forall (fun y => pred y = false) before
    /\ pred x = true.
Proof.
  induction range as [|y range IH]; simpl; [discriminate|].
  destruct (pred y) eqn:Hy.
  - intro H. injection H as -> ->. exists []. repeat split; [constructor|assumption].
  - intro H. destruct (IH H) as (before & -> & Hbefore & Hx).
    exists (y :: before). repeat split; [constructor|]; assumption.
Qed.

Lemma find_if_none {A : Type} (pred : A -> bool) (range : list A) :
  Std.find_if pred range = [] -> Forall (fun y => pred y = false) range.
Proof.
  induction range as [|y range IH]; simpl; [constructor|].
  destruct (pred y) eqn:Hy; [discriminate|].
  intro H. constructor; auto.
Qed.

(** ** The first chain, method by method *)

Section ChainShape.

Import Finder Outcomes.

Lemma last_cons_default {A : Type} (l : list A) (a d : A) : last (a :: l) d = last l a.
Proof.
  destruct l as [|b l]; [reflexivity|].
  change (last (b :: l) d = last (b :: l) a). apply last_default.
Qed.

(** The loop keeps the last method of the longest run of public
    methods at the front of [it]. *)
Lemma chain_loop_split (it : list CXXMethodDecl) (kept : CXXMethodDecl) :
  exists chain after,
    it = (chain ++ after)%list
    /\ Forall public_explicit chain
    /\ (after = [] \/ exists m rest, after = m :: rest /\ not_public_explicit m)
    /\ last_public_method_in_first_public_method_chain kept it = last chain kept.
Proof.
  revert kept. induction it as [|m it IH]; intro kept.
  - exists [], []. repeat split; [constructor|now left].
  - cbn [last_public_method_in_first_public_method_chain].
    unfold is_not_public_or_is_public_implicit_method.
    destruct (is_public_explicit_method m) eqn:Hm; cbn [negb].
    + destruct (IH m) as (chain & after & -> & Hchain & Hafter & Hlast).
      exists (m :: chain), after. repeat split.
      * constructor; assumption.
      * exact Hafter.
      * rewrite Hlast. symmetry. apply last_cons_default.
    + exists [], (m :: it). repeat split; [constructor|].
      right. exists m, it. split; [reflexivity|exact Hm].
Qed.

(** The method the two copies of the search keep, when the record has a
    public method written in it. *)
Lemma chain_shape (record : CXXRecordDecl) :
  match Std.find_if is_public_explicit_method (methods record) with
  | [] => Forall not_public_explicit (methods record)
  | first :: rest =>
      exists before chain kept after,
        methods record = (before ++ chain ++ kept :: after)%list
        /\ Forall not_public_explicit before
        /\ Forall public_explicit chain
        /\ public_explicit kept
        /\ (after = [] \/ exists m others, after = m :: others /\ not_public_explicit m)
        /\ last_public_method_in_first_public_method_chain first (first :: rest) = kept
  end.
Proof.
  destruct (Std.find_if is_public_explicit_method (methods record))
    as [|first rest] eqn:Hfind.
  - now apply find_if_none.
  - destruct (find_if_split _ _ _ _ Hfind) as (before & Hmethods & Hbefore & Hfirst).
    destruct (chain_loop_split (first :: rest) first)
      as (run & after & Hrun & Hpublic & Hafter & Hkept).
    destruct run as [|r run].
    { exfalso. destruct Hafter as [Hnil|(m & others & Heq & Hm)].
      - rewrite Hnil in Hrun. discriminate.
      - cbn [app] in Hrun. rewrite Heq in Hrun. injection Hrun as <- _.
        unfold not_public_explicit in Hm. congruence. }
    destruct (exists_last (l := r :: run)) as (chain & kept & Hsplit); [discriminate|].
    rewrite Hsplit in Hrun, Hpublic, Hkept. rewrite last_last in Hkept.
    apply Forall_app in Hpublic. destruct Hpublic as [Hchain Hlast].
    exists before, chain, kept, after. repeat split; try assumption.
    + rewrite Hmethods, Hrun, <- app_assoc. reflexivity.
    + now inversion Hlast.
Qed.

End ChainShape.

(** X1.  The rule of the first chain: without a public method written
    in the class there is no location; else the methods are some that
    are not public (or are implicit), then a run of public ones, then
    nothing or a method that is not public, and the location is the end
    of the last method of that run. *)
Theorem first_chain_is_the_first_run (record : CXXRecordDecl) :
  match Finder.find_location_after_last_public_method_in_the_first_chain record with
  | None => Forall Outcomes.not_public_explicit (methods record)
  | Some loc =>
      exists before chain kept after,
        methods record = (before ++ chain ++ kept :: after)%list
        /\ Forall Outcomes.not_public_explicit before
        /\ Forall Outcomes.public_explicit chain
        /\ Outcomes.public_explicit kept
        /\ (after = []
            \/ exists m others, after = m :: others /\ Outcomes.not_public_explicit m)
        /\ loc = getEndLoc kept
  end.
Proof.
  pose proof (chain_shape record) as Hshape.
  unfold Finder.find_location_after_last_public_method_in_the_first_chain.
  destruct (Std.find_if Finder.is_public_explicit_method (methods record))
    as [|first rest]; [exact Hshape|].
  destruct Hshape as (before & chain & kept & after & H1 & H2 & H3 & H4 & H5 & H6).
  exists before, chain, kept, after. rewrite H6. auto 10.
Qed.

(** X2.  The function behind the [return] that looks for the method
    gives [nullptr] exactly when no public method is written in the
    class; else it gives the last method of the first run of public
    methods, the one whose end the finder starts from. *)
Theorem last_public_method_of_first_chain (record : CXXRecordDecl) :
  Finder.find_location_after_last_public_method_in_the_first_chain record
  = option_map (fun m : CXXMethodDecl => getEndLoc m)
      (Unreached.find_last_public_method_in_first_method_chain record)
  /\ match Unreached.find_last_public_method_in_first_method_chain record with
     | None => Forall Outcomes.not_public_explicit (methods record)
     | Some kept =>
         exists before chain after,
           methods record = (before ++ chain ++ kept :: after)%list
           /\ Forall Outcomes.not_public_explicit before
           /\ Forall Outcomes.public_explicit chain
           /\ Outcomes.public_explicit kept
           /\ (after = []
               \/ exists m others, after = m :: others /\ Outcomes.not_public_explicit m)
     end.
Proof.
  pose proof (chain_shape record) as Hshape.
  unfold Finder.find_location_after_last_public_method_in_the_first_chain,
    Unreached.find_last_public_method_in_first_method_chain.
  destruct (Std.find_if Finder.is_public_explicit_method (methods record))
    as [|first rest]; [split; [reflexivity|exact Hshape]|].
  split; [reflexivity|].
  destruct Hshape as (before & chain & kept & after & H1 & H2 & H3 & H4 & H5 & H6).
  rewrite H6. exists before, chain, after. auto 10.
Qed.

(** ** The outcomes of the finder *)

Section FinderOutcomes.

Import Finder Outcomes.

Variable cpp_file_content : string.
Variable record : CXXRecordDecl.
Variable sm : SourceManager.

(** [find], case by case. *)
Lemma find_unfolded :
  find cpp_file_content record sm
  = match findNextToken sm (start_location record) with
    | None => Throws "Can't unpack token; token empty!"
    | Some tok =>
        if isValid (getLocation tok) then
          if ((begin_offset_of sm tok <=? end_offset_of sm tok)
              && (end_offset_of sm tok <=? Std.size cpp_file_content))%N
          then
            let place :=
              Std.find_from cpp_file_content (begin_offset_of sm tok)
                (N.to_nat (end_offset_of sm tok - begin_offset_of sm tok)) newline in
            Returns {| offset := if (place =? end_offset_of sm tok)%N
                                 then end_offset_of sm tok
                                 else to_unsigned (place + 1);
                       is_public_section_needed := false |}
          else UndefinedBehaviour
        else Throws "Can't unpack token; token holds invalid location!"
    end.
Proof.
  unfold find, get_insert_offset_after_location. fold (start_location record).
  destruct (findNextToken sm (start_location record)) as [tok|]; [|reflexivity].
  unfold unpack_source_location_from_token.
  destruct (isValid (getLocation tok)); [|reflexivity].
  cbn [bind]. fold (begin_offset_of sm tok). fold (end_offset_of sm tok).
  unfold Std.find.
  destruct ((begin_offset_of sm tok <=? end_offset_of sm tok)
            && (end_offset_of sm tok <=? Std.size cpp_file_content))%N; [|reflexivity].
  cbn [bind]. cbv zeta.
  destruct (_ =? end_offset_of sm tok)%N; reflexivity.
Qed.

End FinderOutcomes.

(** X3.  The finder throws in two cases only, each with its own
    message: when the lexer has no token behind the location it starts
    from (which is the case for a class without a first chain, once the
    lexer has no token behind the invalid location), and when that
    token has no valid location. *)
Theorem finder_throws_for_missing_or_invalid_token
    (cpp_file_content : string) (record : CXXRecordDecl) (sm : SourceManager)
    (what : string) :
  Finder.find_suitable_place_in_class_for_public_method cpp_file_content record sm
  = Throws what
  <-> (findNextToken sm (Outcomes.start_location record) = None
       /\ what = "Can't unpack token; token empty!")
      \/ (exists tok,
             findNextToken sm (Outcomes.start_location record) = Some tok
             /\ isValid (getLocation tok) = false
             /\ what = "Can't unpack token; token holds invalid location!").
Proof.
  unfold Finder.find_suitable_place_in_class_for_public_method.
  rewrite find_unfolded.
  destruct (findNextToken sm (Outcomes.start_location record)) as [tok|].
  - destruct (isValid (getLocation tok)) eqn:Hvalid.
    + split.
      * destruct (_ && _); discriminate.
      * intros [[H _]|(tok' & H & Hinvalid & _)]; [discriminate|].
        injection H as <-. congruence.
    + split.
      * intro H. injection H as <-. right. exists tok. auto.
      * intros [[H _]|(tok' & _ & _ & ->)]; [discriminate|reflexivity].
  - split.
    + intro H. injection H as <-. left. auto.
    + intros [[_ ->]|(tok' & H & _)]; [reflexivity|discriminate].
Qed.

(** X4.  The finder leaves the text of the file exactly when the offset
    of the token behind its start and the offset of the anchor are not
    in order or the anchor lies behind the end of the text it was
    given; nothing else makes its behaviour undefined. *)
Theorem finder_leaves_the_text_only_out_of_range
    (cpp_file_content : string) (record : CXXRecordDecl) (sm : SourceManager) :
  Finder.find_suitable_place_in_class_for_public_method cpp_file_content record sm
  = UndefinedBehaviour
  <-> exists tok,
      findNextToken sm (Outcomes.start_location record) = Some tok
      /\ isValid (getLocation tok) = true
      /\ ~ (Outcomes.begin_offset_of sm tok <= Outcomes.end_offset_of sm tok
            <= Std.size cpp_file_content)%N.
Proof.
  unfold Finder.find_suitable_place_in_class_for_public_method.
  rewrite find_unfolded.
  destruct (findNextToken sm (Outcomes.start_location record)) as [tok|].
  2: { split; [discriminate|]. intros (tok' & H & _). discriminate. }
  destruct (isValid (getLocation tok)) eqn:Hvalid.
  2: { split; [discriminate|]. intros (tok' & H & Hv & _).
       injection H as <-. congruence. }
  destruct (N.leb_spec (Outcomes.begin_offset_of sm tok) (Outcomes.end_offset_of sm tok))
    as [Hle|Hgt];
    destruct (N.leb_spec (Outcomes.end_offset_of sm tok) (Std.size cpp_file_content))
      as [Hle'|Hgt']; cbn [andb].
  - split; [discriminate|]. intros (tok' & H & _ & Hout). injection H as <-. lia.
  - split; [|reflexivity]. intros _. exists tok. repeat split; auto. lia.
  - split; [|reflexivity]. intros _. exists tok. repeat split; auto. lia.
  - split; [|reflexivity]. intros _. exists tok. repeat split; auto. lia.
Qed.

(** X5.  An offset the finder returns is a place of the text it was
    given: it lies between the offset of the first token behind the
    start and the offset of the anchor, which is not behind the end of
    the text; and no [public:] label is asked for. *)
Theorem finder_returns_a_place_of_the_text
    (cpp_file_content : string) (record : CXXRecordDecl) (sm : SourceManager)
    (p : Finder.SuitablePublicMethodPlaceInCppFile) :
  Finder.find_suitable_place_in_class_for_public_method cpp_file_content record sm
  = Returns p ->
  exists tok,
    findNextToken sm (Outcomes.start_location record) = Some tok
    /\ (Outcomes.begin_offset_of sm tok <= Finder.offset p <= Outcomes.end_offset_of sm tok)%N
    /\ (Outcomes.end_offset_of sm tok <= Std.size cpp_file_content)%N
    /\ Finder.is_public_section_needed p = false.
Proof.
  unfold Finder.find_suitable_place_in_class_for_public_method.
  rewrite find_unfolded.
  destruct (findNextToken sm (Outcomes.start_location record)) as [tok|]; [|discriminate].
  destruct (isValid (getLocation tok)); [|discriminate].
  destruct (N.leb_spec (Outcomes.begin_offset_of sm tok) (Outcomes.end_offset_of sm tok))
    as [Hle|Hgt]; [|discriminate].
  destruct (N.leb_spec (Outcomes.end_offset_of sm tok) (Std.size cpp_file_content))
    as [Hle'|Hgt']; [|discriminate].
  cbn [andb]. cbv zeta. intro H. injection H as <-.
  exists tok. cbn [Finder.offset Finder.is_public_section_needed].
  split; [reflexivity|]. split; [|auto].
  pose proof (find_from_range cpp_file_content Finder.newline
                (N.to_nat (Outcomes.end_offset_of sm tok - Outcomes.begin_offset_of sm tok))
                (Outcomes.begin_offset_of sm tok)) as Hrange.
  rewrite N2Nat.id in Hrange.
  destruct (N.eqb_spec
              (Std.find_from cpp_file_content (Outcomes.begin_offset_of sm tok)
                 (N.to_nat (Outcomes.end_offset_of sm tok - Outcomes.begin_offset_of sm tok))
                 Finder.newline)
              (Outcomes.end_offset_of sm tok)) as [Heq|Hne]; [lia|].
  pose proof (getFileOffset_lt sm
                (Finder.end_location_of sm (Some tok) (getLocation tok))) as Hbound.
  fold (Outcomes.end_offset_of sm tok) in Hbound.
  rewrite to_unsigned_small; lia.
Qed.

(** The class of [Examples.declared_method_source]: the token behind
    the start is the semicolon at offset 21, the anchor is [int] at
    offset 25, and the text has 35 characters. *)
Lemma finder_returns_a_place_of_the_text_witness :
  let content := Examples.declared_method_source in
  let record := Examples.declared_method_class in
  let sm := TokenStream.front_end content in
  Finder.find_suitable_place_in_class_for_public_method content record sm
  = Returns {| Finder.offset := 23; Finder.is_public_section_needed := false |}
  /\ Std.size content = 35%N
  /\ exists tok,
      findNextToken sm (Outcomes.start_location record) = Some tok
      /\ (Outcomes.begin_offset_of sm tok <= 23 <= Outcomes.end_offset_of sm tok)%N
      /\ (Outcomes.end_offset_of sm tok <= Std.size content)%N
      /\ false = false.
Proof.
  cbv zeta.
  split; [vm_compute; reflexivity|].
  split; [vm_compute; reflexivity|].
  apply (finder_returns_a_place_of_the_text
           Examples.declared_method_source Examples.declared_method_class
           (TokenStream.front_end Examples.declared_method_source)
           {| Finder.offset := 23; Finder.is_public_section_needed := false |}).
  vm_compute. reflexivity.
Defined.

(** X6.  When the token behind the start is no semicolon, nothing is
    skipped and no newline is looked for: the offset returned is the
    offset of that token, provided it lies in the text. *)
Theorem finder_returns_the_token_that_is_no_semicolon
    (cpp_file_content : string) (record : CXXRecordDecl) (sm : SourceManager)
    (tok : Token) :
  findNextToken sm (Outcomes.start_location record) = Some tok ->
  isValid (getLocation tok) = true ->
  Outcomes.is_not_semi tok ->
  (Outcomes.begin_offset_of sm tok <= Std.size cpp_file_content)%N ->
  Finder.find_suitable_place_in_class_for_public_method cpp_file_content record sm
  = Returns {| Finder.offset := Outcomes.begin_offset_of sm tok;
               Finder.is_public_section_needed := false |}.
Proof.
  intros Hnext Hvalid Hkind Hsize.
  unfold Finder.find_suitable_place_in_class_for_public_method.
  rewrite find_unfolded, Hnext, Hvalid.
  assert (Outcomes.end_offset_of sm tok = Outcomes.begin_offset_of sm tok) as ->.
  { unfold Outcomes.end_offset_of, Outcomes.begin_offset_of, Finder.end_location_of.
    unfold Outcomes.is_not_semi in Hkind. now rewrite Hkind. }
  rewrite N.leb_refl. cbn [andb].
  destruct (N.leb_spec (Outcomes.begin_offset_of sm tok) (Std.size cpp_file_content))
    as [_|Hgt]; [|lia].
  cbv zeta. rewrite N.sub_diag. cbn [N.to_nat Std.find_from].
  now rewrite N.eqb_refl.
Qed.

(** The class of [Examples.inline_method_source]: the token behind the
    body of [f] is [int] at offset 27. *)
Lemma finder_returns_the_token_that_is_no_semicolon_witness :
  let content := Examples.inline_method_source in
  let record := Examples.inline_method_class in
  let sm := TokenStream.front_end content in
  let tok := {| getKind := identifier; getLocation := TokenStream.location_at 27 |} in
  Outcomes.begin_offset_of sm tok = 27%N
  /\ Finder.find_suitable_place_in_class_for_public_method content record sm
     = Returns {| Finder.offset := Outcomes.begin_offset_of sm tok;
                  Finder.is_public_section_needed := false |}.
Proof.
  cbv zeta. split; [vm_compute; reflexivity|].
  apply (finder_returns_the_token_that_is_no_semicolon
           Examples.inline_method_source Examples.inline_method_class
           (TokenStream.front_end Examples.inline_method_source)
           {| getKind := identifier; getLocation := TokenStream.location_at 27 |}).
  - vm_compute. reflexivity.
  - vm_compute. reflexivity.
  - vm_compute. reflexivity.
  - vm_compute. discriminate.
Defined.

(** ** Where the skip over the semicolons stops *)

Section ScanStops.

Import Finder Resolver Outcomes.

Variable sm : SourceManager.

Lemma skip_semis_stops (rounds : nat) (loc : SourceLocation) :
  exists passed : list Token,
    follows sm loc passed
    /\ skip_semis sm rounds loc = reached loc passed
    /\ ((length passed = rounds /\ Forall is_semi passed)
        \/ (length passed < rounds
            /\ findNextToken sm (reached loc passed) = None /\ Forall is_semi passed)
        \/ (length passed <= rounds
            /\ exists before tok,
                passed = (before ++ [tok])%list /\ Forall is_semi before /\ is_not_semi tok)).
Proof.
  revert loc. induction rounds as [|rounds IH]; intro loc; cbn [skip_semis].
  - exists []. repeat split. left. split; [reflexivity|constructor].
  - destruct (findNextToken sm loc) as [tok|] eqn:Hnext.
    + destruct (token_isNot tok semi) eqn:Hkind; unfold token_isNot in Hkind.
      * apply negb_true_iff in Hkind.
        exists [tok]. repeat split; [assumption|].
        right. right. split; [simpl; lia|].
        exists [], tok. repeat split; [constructor|exact Hkind].
      * apply negb_false_iff in Hkind.
        destruct (IH (getLocation tok)) as (passed & Hfollows & Hskip & Hstop).
        exists (tok :: passed). split; [split; assumption|].
        split; [now rewrite reached_cons|].
        rewrite reached_cons.
        destruct Hstop as [[Hlen Hsemis]|[(Hlen & Hend & Hsemis)|(Hlen & before & last & -> & Hsemis & Hlast)]].
        -- left. split; [simpl; lia|now constructor].
        -- right. left. repeat split; [simpl; lia|assumption|now constructor].
        -- right. right. split; [simpl in *; lia|].
           exists (tok :: before), last. repeat split; [now constructor|assumption].
    + exists []. repeat split. right. left.
      repeat split; [simpl; lia|assumption|constructor].
Qed.

End ScanStops.

(** X7.  The skip over the semicolons follows the tokens of the lexer
    and stops in one of three ways: at the first token that is no
    semicolon, which is the anchor; at the last semicolon before the
    lexer has no token left; or, after 1000 semicolons in a row, at the
    thousandth. *)
Theorem terminator_scan_stops_in_three_ways (sm : SourceManager) (loc : SourceLocation) :
  exists passed : list Token,
    Resolver.follows sm loc passed
    /\ Finder.skip_semis sm 1000 loc = Resolver.reached loc passed
    /\ ((length passed = 1000 /\ Forall Resolver.is_semi passed)
        \/ (length passed < 1000
            /\ findNextToken sm (Resolver.reached loc passed) = None
            /\ Forall Resolver.is_semi passed)
        \/ (length passed <= 1000
            /\ exists before tok,
                passed = (before ++ [tok])%list
                /\ Forall Resolver.is_semi before /\ Outcomes.is_not_semi tok)).
Proof. apply skip_semis_stops. Qed.

(** ** The rules behind the [return], one by one *)

Section OpeningBracket.

Import Finder Resolver Outcomes.

Variable sm : SourceManager.

Lemma opening_bracket_after (passed : list Token) (rounds : nat)
    (start stop : SourceLocation) :
  follows sm start passed ->
  Forall is_no_opening_brace passed ->
  length passed < rounds ->
  (findNextToken sm (reached start passed) = None /\ stop = reached start passed)
  \/ (exists brace,
         findNextToken sm (reached start passed) = Some brace
         /\ is_opening_brace brace /\ stop = getLocation brace) ->
  find_line_with_opening_bracket_from sm rounds start
  = Some (getSpellingLineNumber sm stop).
Proof.
  revert rounds start.
  induction passed as [|tok passed IH]; intros rounds start Hfollows Hkinds Hrounds Hstop.
  - destruct rounds as [|rounds]; [simpl in Hrounds; lia|].
    cbn [find_line_with_opening_bracket_from].
    change (reached start []) with start in Hstop.
    destruct Hstop as [[-> ->]|(brace & -> & Hbrace & ->)]; [reflexivity|].
    unfold is_opening_brace in Hbrace. now rewrite Hbrace.
  - destruct rounds as [|rounds]; [simpl in Hrounds; lia|].
    cbn [find_line_with_opening_bracket_from].
    destruct Hfollows as [Hnext Hfollows]. rewrite Hnext.
    apply Forall_cons_iff in Hkinds. destruct Hkinds as [Htok Hkinds].
    unfold is_no_opening_brace in Htok. rewrite Htok.
    rewrite reached_cons in Hstop.
    apply IH; try assumption. simpl in Hrounds. lia.
Qed.

Lemma opening_bracket_never (rounds : nat) (location : SourceLocation) :
  isValid location = true ->
  (forall loc,
      isValid loc = true ->
      exists tok,
        findNextToken sm loc = Some tok
        /\ is_no_opening_brace tok /\ isValid (getLocation tok) = true) ->
  find_line_with_opening_bracket_from sm rounds location = None.
Proof.
  intros Hvalid Hstream. revert location Hvalid.
  induction rounds as [|rounds IH]; intros location Hvalid; [reflexivity|].
  cbn [find_line_with_opening_bracket_from].
  destruct (Hstream location Hvalid) as (tok & -> & Hkind & Hnext).
  unfold is_no_opening_brace in Hkind. rewrite Hkind. now apply IH.
Qed.

End OpeningBracket.

(** X8.  The rule of the opening brace, which no call reaches: when the
    tokens behind the first token of the class are some that are no
    opening brace and then an opening brace, and the loop is given more
    rounds than there are tokens before the brace, the place is the
    number of the line of that brace, with a [public:] label asked for
    unless the class is a struct; and when the lexer has no token left
    before any brace, the line is that of the last token. *)
Theorem opening_bracket_rule_gives_the_line_of_the_first_brace
    (sm : SourceManager) (record : CXXRecordDecl) (rounds : nat)
    (passed : list Token) (stop : SourceLocation) :
  Resolver.follows sm (getBeginLoc record) passed ->
  Forall Outcomes.is_no_opening_brace passed ->
  length passed < rounds ->
  (findNextToken sm (Resolver.reached (getBeginLoc record) passed) = None
   /\ stop = Resolver.reached (getBeginLoc record) passed)
  \/ (exists brace,
         findNextToken sm (Resolver.reached (getBeginLoc record) passed) = Some brace
         /\ Outcomes.is_opening_brace brace /\ stop = getLocation brace) ->
  Finder.opening_bracket_rule rounds record sm
  = Some {| Finder.offset := getSpellingLineNumber sm stop;
            Finder.is_public_section_needed := negb (isStruct record) |}.
Proof.
  intros Hfollows Hkinds Hrounds Hstop.
  unfold Finder.opening_bracket_rule, Finder.find_line_with_opening_bracket.
  now rewrite (opening_bracket_after sm passed rounds _ stop Hfollows Hkinds Hrounds Hstop).
Qed.

(** The class of [Examples.private_member_source]: [C] at offset 6 is
    passed, the brace is at offset 8 in line 1. *)
Lemma opening_bracket_rule_gives_the_line_of_the_first_brace_witness :
  let content := Examples.private_member_source in
  let record := Examples.private_member_class in
  let sm := TokenStream.front_end content in
  let passed := [{| getKind := identifier; getLocation := TokenStream.location_at 6 |}] in
  getSpellingLineNumber sm (TokenStream.location_at 8) = 1%N
  /\ Finder.opening_bracket_rule 2 record sm
     = Some {| Finder.offset := getSpellingLineNumber sm (TokenStream.location_at 8);
               Finder.is_public_section_needed := negb (isStruct record) |}.
Proof.
  cbv zeta. split; [vm_compute; reflexivity|].
  apply (opening_bracket_rule_gives_the_line_of_the_first_brace
           (TokenStream.front_end Examples.private_member_source)
           Examples.private_member_class 2
           [{| getKind := identifier; getLocation := TokenStream.location_at 6 |}]
           (TokenStream.location_at 8)).
  - vm_compute. split; reflexivity.
  - repeat constructor.
  - simpl. lia.
  - right. exists {| getKind := l_brace; getLocation := TokenStream.location_at 8 |}.
    vm_compute. repeat split; reflexivity.
Defined.

Lemma location_at_valid (file_offset : N) :
  isValid (TokenStream.location_at file_offset) = true.
Proof.
  unfold isValid, TokenStream.location_at. cbn [ID].
  apply negb_true_iff, N.eqb_neq. lia.
Qed.

(** A text without an opening brace: behind every valid location the
    lexer of [TokenStream] has a token that is none. *)
Lemma front_end_without_opening_brace (content : string) :
  forallb (fun t => negb (TokenKind_eqb (TokenStream.raw_kind t) l_brace))
    (TokenStream.lex content 0 false) = true ->
  forall loc,
    isValid loc = true ->
    exists tok,
      findNextToken (TokenStream.front_end content) loc = Some tok
      /\ Outcomes.is_no_opening_brace tok /\ isValid (getLocation tok) = true.
Proof.
  intros Hkinds loc Hloc.
  unfold TokenStream.front_end. cbn [findNextToken]. unfold TokenStream.token_after.
  rewrite Hloc. eexists. split; [reflexivity|].
  unfold TokenStream.token_behind.
  destruct (List.find _ _) as [t|] eqn:Hfind.
  - apply find_some in Hfind. destruct Hfind as [Hin _].
    rewrite forallb_forall in Hkinds. specialize (Hkinds t Hin).
    apply negb_true_iff in Hkinds.
    split; [exact Hkinds|apply location_at_valid].
  - split; [reflexivity|apply location_at_valid].
Qed.

(** X9.  The loop of the rule of the opening brace has no bound of its
    own: started at a valid location, with a lexer that has a token
    with a valid location behind every valid location (the end of the
    file is such a token) and no opening brace among them, it is not
    done after any number of rounds. *)
Theorem opening_bracket_loop_never_ends
    (sm : SourceManager) (rounds : nat) (location : SourceLocation) :
  isValid location = true ->
  (forall loc,
      isValid loc = true ->
      exists tok,
        findNextToken sm loc = Some tok
        /\ Outcomes.is_no_opening_brace tok /\ isValid (getLocation tok) = true) ->
  Finder.find_line_with_opening_bracket_from sm rounds location = None.
Proof. apply opening_bracket_never. Qed.

(** The declaration [class A;], without a body, and 4000 rounds. *)
Lemma opening_bracket_loop_never_ends_witness :
  let sm := TokenStream.front_end MoreExamples.forward_declaration_source in
  isValid (TokenStream.location_at 0) = true
  /\ Finder.find_line_with_opening_bracket_from sm 4000 (TokenStream.location_at 0) = None.
Proof.
  cbv zeta. split; [reflexivity|].
  apply (opening_bracket_loop_never_ends
           (TokenStream.front_end MoreExamples.forward_declaration_source)
           4000 (TokenStream.location_at 0)).
  - reflexivity.
  - apply front_end_without_opening_brace. vm_compute. reflexivity.
Defined.

(** X10.  The rule of the [public:] label, which no call reaches: of the
    lines the search reports it gives the first that lies between the
    line of the first token of the class and the line of the end of its
    closing brace, and none when every reported line lies outside. *)
Theorem public_section_is_the_first_line_within_the_class
    (grep_file : string -> string -> list N)
    (getLocForEndOfToken : SourceLocation -> SourceLocation)
    (cpp_file_content : string) (record : CXXRecordDecl) (sm : SourceManager) :
  let lines := grep_file cpp_file_content "public\s*:" in
  let first_line := getSpellingLineNumber sm (getBegin (getSourceRange record)) in
  let last_line :=
    getSpellingLineNumber sm (getLocForEndOfToken (getEnd (getSourceRange record))) in
  let outside line := ~ (first_line <= line <= last_line)%N in
  match Unreached.try_find_line_with_public_section
          grep_file getLocForEndOfToken cpp_file_content record sm with
  | None => Forall outside lines
  | Some line =>
      exists before after,
        lines = (before ++ line :: after)%list
        /\ Forall outside before
        /\ (first_line <= line <= last_line)%N
  end.
Proof.
  cbv zeta.
  assert (forall line,
             Unreached.is_line_within_class_body getLocForEndOfToken record sm line = false ->
             ~ (getSpellingLineNumber sm (getBegin (getSourceRange record)) <= line
                <= getSpellingLineNumber sm
                     (getLocForEndOfToken (getEnd (getSourceRange record))))%N) as Hout.
  { intros line H. unfold Unreached.is_line_within_class_body,
      Unreached.get_class_body_begin_end_lines in H. cbn [fst snd] in H.
    apply andb_false_iff in H. destruct H as [H|H]; apply N.leb_gt in H; lia. }
  unfold Unreached.try_find_line_with_public_section,
    Unreached.get_line_nums_with_public_access_specifier_declarations.
  destruct (Std.find_if _ _) as [|line rest] eqn:Hfind.
  - apply find_if_none in Hfind.
    eapply Forall_impl; [|exact Hfind]. exact Hout.
  - apply find_if_split in Hfind. destruct Hfind as (before & Hlines & Hbefore & Hline).
    exists before, rest. repeat split.
    + exact Hlines.
    + eapply Forall_impl; [|exact Hbefore]. exact Hout.
    + unfold Unreached.is_line_within_class_body,
        Unreached.get_class_body_begin_end_lines in Hline. cbn [fst snd] in Hline.
      apply andb_true_iff in Hline. destruct Hline as [H _]. now apply N.leb_le in H.
    + unfold Unreached.is_line_within_class_body,
        Unreached.get_class_body_begin_end_lines in Hline. cbn [fst snd] in Hline.
      apply andb_true_iff in Hline. destruct Hline as [_ H]. now apply N.leb_le in H.
Qed.

(** The second class of [MoreExamples.two_classes_source]: the labels
    are in lines 2 and 7, the class runs from line 5 to line 9. *)
Lemma public_section_of_the_second_class :
  let content := MoreExamples.two_classes_source in
  MoreExamples.grep_public_label content "public\s*:" = [2; 7]%N
  /\ Unreached.try_find_line_with_public_section
       MoreExamples.grep_public_label (MoreExamples.loc_for_end_of_token content)
       content MoreExamples.second_class (TokenStream.front_end content)
     = Some 7%N.
Proof. cbv zeta. split; vm_compute; reflexivity. Qed.

(** ** [join] *)

Lemma concat_of_two_ranges (sep x y : string) (a b : list string) :
  String.concat sep (x :: a ++ y :: b)
  = String.concat sep (x :: a) ++ sep ++ String.concat sep (y :: b).
Proof.
  revert x. induction a as [|z a IH]; intro x.
  - reflexivity.
  - change (x ++ sep ++ String.concat sep (z :: a ++ y :: b)
            = (x ++ sep ++ String.concat sep (z :: a))
                ++ sep ++ String.concat sep (y :: b)).
    rewrite IH, !string_app_assoc. reflexivity.
Qed.

(** X11.  [join] of no string is the empty string, of one string that
    string, and of a range made of two ranges that are not empty the
    two joins with the delimiter between them; so the delimiter stands
    between each two strings and nowhere else. *)
Theorem join_puts_the_delimiter_between
    (delim x y : string) (a b : list string) :
  Expander.join [] delim = ""
  /\ Expander.join [x] delim = x
  /\ Expander.join (x :: a ++ y :: b) delim
     = Expander.join (x :: a) delim ++ delim ++ Expander.join (y :: b) delim.
Proof.
  unfold Expander.join. rewrite !join_range_concat.
  repeat split. apply concat_of_two_ranges.
Qed.

(** ** Substrings of the text *)

Section Substrings.

Import Spec.

Lemma starts_with_itself (needle behind : string) :
  Regex.starts_with needle (needle ++ behind) = Some behind.
Proof.
  induction needle as [|c needle IH]; [reflexivity|].
  cbn [append Regex.starts_with]. now rewrite Ascii.eqb_refl.
Qed.

Lemma occurs_in_unfold (needle s : string) :
  occurs_in needle s
  = match Regex.starts_with needle s with
    | Some _ => true
    | None => match s with
              | EmptyString => false
              | String _ rest => occurs_in needle rest
              end
    end.
Proof. now destruct s. Qed.

Lemma occurs_in_behind (needle before s : string) :
  occurs_in needle s = true -> occurs_in needle (before ++ s) = true.
Proof.
  intro H. induction before as [|c before IH]; [exact H|].
  cbn [append]. rewrite occurs_in_cons.
  destruct (Regex.starts_with needle (String c (before ++ s))); [reflexivity|exact IH].
Qed.

Lemma occurs_in_between (needle before behind : string) :
  occurs_in needle (before ++ needle ++ behind) = true.
Proof.
  apply occurs_in_behind. rewrite occurs_in_unfold. now rewrite starts_with_itself.
Qed.

Lemma concat_has_each (sep x : string) (l : list string) :
  In x l -> exists before behind, String.concat sep l = before ++ x ++ behind.
Proof.
  induction l as [|y l IH]; [contradiction|].
  intros [->|Hin].
  - exists "". destruct l as [|z l].
    + exists "". simpl. now rewrite string_app_nil_r.
    + exists (sep ++ String.concat sep (z :: l)). reflexivity.
  - destruct (IH Hin) as (before & behind & Heq).
    destruct l as [|z l]; [contradiction|].
    exists (y ++ sep ++ before), behind.
    change (y ++ sep ++ String.concat sep (z :: l)
            = (y ++ sep ++ before) ++ x ++ behind).
    rewrite Heq, !string_app_assoc. reflexivity.
Qed.

Lemma name_and_parameter_list_nonempty (f : FunctionDecl) :
  nonempty (name_and_parameter_list f) = true.
Proof.
  unfold nonempty, name_and_parameter_list.
  now destruct (getQualifiedNameAsString f).
Qed.

(** The name with the parameter list is among the fragments that are
    joined. *)
Lemma name_is_joined (sm : SourceManager) (with_attributes : bool)
    (function : FunctionDeclPtr) :
  In (name_and_parameter_list (pointee function))
    (filter nonempty (fragments sm with_attributes function)).
Proof.
  apply filter_In. split; [|apply name_and_parameter_list_nonempty].
  unfold fragments, function_fragments.
  apply in_or_app. right. apply in_or_app. left. right. now left.
Qed.

End Substrings.

(** X12.  The text of a declaration always has the qualified name with
    the parameter list in parentheses in it, whatever else is left out;
    so it is never empty. *)
Theorem declaration_text_has_name_and_parameters
    (sm : SourceManager) (function : FunctionDeclPtr)
    (options : Expander.FullFunctionDeclarationExpanderOptions) :
  Spec.occurs_in
    (getQualifiedNameAsString (pointee function)
       ++ Expander.get_parameters (pointee function))
    (Expander.fully_expand_function_declaration sm function options) = true
  /\ Expander.fully_expand_function_declaration sm function options <> "".
Proof.
  rewrite result_parted_spec, get_parameters_spec.
  destruct (concat_has_each " " _ _
              (name_is_joined sm (negb (Expander.ignore_attribute_specifiers options))
                 function))
    as (before & behind & ->).
  split; [apply occurs_in_between|].
  pose proof (name_and_parameter_list_nonempty (pointee function)) as Hname.
  unfold Spec.nonempty in Hname. apply negb_true_iff, String.eqb_neq in Hname.
  destruct before; [|discriminate].
  destruct (Spec.name_and_parameter_list (pointee function)); [contradiction|discriminate].
Qed.

(** ** The attributes in the text *)

Lemma no_standard_attribute (attrs : list Attr) :
  forallb (fun attr => negb (isStandardAttributeSyntax attr)) attrs = true ->
  filter isStandardAttributeSyntax attrs = [].
Proof.
  induction attrs as [|attr attrs IH]; [reflexivity|].
  cbn [forallb filter]. intro H. apply andb_true_iff in H. destruct H as [Hattr Hrest].
  apply negb_true_iff in Hattr. rewrite Hattr. now apply IH.
Qed.

(** X13.  For a declaration none of whose attributes is written in the
    standard syntax the option makes no difference: the text is the
    same with and without [ignore_attribute_specifiers]. *)
Theorem option_is_idle_without_standard_attributes
    (sm : SourceManager) (function : FunctionDeclPtr)
    (options options' : Expander.FullFunctionDeclarationExpanderOptions) :
  forallb (fun attr => negb (isStandardAttributeSyntax attr))
    (getAttrs (pointee function)) = true ->
  Expander.fully_expand_function_declaration sm function options
  = Expander.fully_expand_function_declaration sm function options'.
Proof.
  intro Hattrs. rewrite !result_parted_spec.
  assert (forall with_attributes,
             filter Spec.nonempty (Spec.fragments sm with_attributes function)
             = filter Spec.nonempty (Spec.fragments sm false function)) as Hsame.
  { intros [|]; [|reflexivity].
    unfold Spec.fragments, Spec.standard_attributes.
    rewrite (no_standard_attribute _ Hattrs). reflexivity. }
  now rewrite (Hsame (negb (Expander.ignore_attribute_specifiers options))),
    (Hsame (negb (Expander.ignore_attribute_specifiers options'))).
Qed.

(** The function [stop] of [MoreExamples.gnu_attribute_source], whose
    one attribute is not in the standard syntax. *)
Lemma option_is_idle_without_standard_attributes_witness :
  let sm := TokenStream.front_end MoreExamples.gnu_attribute_source in
  let function := to_FunctionDecl MoreExamples.stop_function in
  Expander.fully_expand_function_declaration sm function Expander.default_options
  = "void stop()"
  /\ Expander.fully_expand_function_declaration sm function Expander.default_options
     = Expander.fully_expand_function_declaration sm function
         {| Expander.ignore_attribute_specifiers := true |}.
Proof.
  cbv zeta. split; [vm_compute; reflexivity|].
  apply (option_is_idle_without_standard_attributes
           (TokenStream.front_end MoreExamples.gnu_attribute_source)
           (to_FunctionDecl MoreExamples.stop_function)).
  vm_compute. reflexivity.
Defined.

(** X14.  With the attributes not ignored, the text of a declaration
    that has an attribute in the standard syntax starts with the first
    such attribute, its source text between two pairs of brackets. *)
Theorem first_standard_attribute_comes_first
    (sm : SourceManager) (function : FunctionDeclPtr)
    (options : Expander.FullFunctionDeclarationExpanderOptions)
    (attr : Attr) (others : list Attr) :
  Expander.ignore_attribute_specifiers options = false ->
  filter isStandardAttributeSyntax (getAttrs (pointee function)) = attr :: others ->
  exists rest,
    Expander.fully_expand_function_declaration sm function options
    = "[[" ++ source_range_content_to_string sm (getRange attr) ++ "]]" ++ rest.
Proof.
  intros Hignore Hattrs. rewrite result_parted_spec, Hignore. cbn [negb].
  unfold Spec.fragments. cbn [app filter].
  assert (exists tail,
             Spec.standard_attributes sm (pointee function)
             = ("[[" ++ Spec.text_of sm (getRange attr) ++ "]]") ++ tail) as (tail & Hfirst).
  { unfold Spec.standard_attributes. rewrite Hattrs. cbn [map].
    eexists. apply (cut_at_cons " "). }
  rewrite Hfirst.
  replace (Spec.nonempty (("[[" ++ Spec.text_of sm (getRange attr) ++ "]]") ++ tail))
    with true by reflexivity.
  eexists. rewrite (cut_at_cons " " : forall first rest, String.concat " " (first :: rest) = _).
  unfold Spec.text_of. rewrite !string_app_assoc. reflexivity.
Qed.

(** The method [size] of [Examples.interface_source]. *)
Lemma first_standard_attribute_comes_first_witness :
  let sm := TokenStream.front_end Examples.interface_source in
  let attr := {| isStandardAttributeSyntax := true;
                 getRange := TokenStream.range_at 13 13 |} in
  source_range_content_to_string sm (getRange attr) = "nodiscard"
  /\ exists rest,
      Expander.fully_expand_function_declaration sm
        (to_CXXMethodDecl Examples.size_method) Expander.default_options
      = "[[" ++ source_range_content_to_string sm (getRange attr) ++ "]]" ++ rest.
Proof.
  cbv zeta. split; [vm_compute; reflexivity|].
  apply (first_standard_attribute_comes_first
           (TokenStream.front_end Examples.interface_source)
           (to_CXXMethodDecl Examples.size_method) Expander.default_options
           {| isStandardAttributeSyntax := true; getRange := TokenStream.range_at 13 13 |}
           []).
  - reflexivity.
  - reflexivity.
Defined.

(** ** A method and the function it is *)

Lemma concat_of_joined_front (sep x : string) (front back : list string) :
  String.concat sep ((x :: front) ++ back)
  = String.concat sep (String.concat sep (x :: front) :: back).
Proof.
  revert x. induction front as [|y front IH]; intro x; [reflexivity|].
  change (String.concat sep (x :: (y :: front) ++ back)
          = String.concat sep ((x ++ sep ++ String.concat sep (y :: front)) :: back)).
  rewrite !concat_app_head. rewrite <- IH. reflexivity.
Qed.

(** X15.  The text of a method is the text of the same declaration taken
    as a function, with those of [const], the ref-qualifier and the
    exception specification that are not empty joined behind it, each
    after a space. *)
Theorem method_text_extends_function_text
    (sm : SourceManager) (m : CXXMethodDecl)
    (options : Expander.FullFunctionDeclarationExpanderOptions) :
  Expander.fully_expand_function_declaration sm (to_CXXMethodDecl m) options
  = String.concat " "
      (Expander.fully_expand_function_declaration sm (to_FunctionDecl m) options
         :: filter Spec.nonempty (Spec.method_fragments sm m)).
Proof.
  rewrite !result_parted_spec.
  pose proof (name_is_joined sm (negb (Expander.ignore_attribute_specifiers options))
                (to_FunctionDecl m)) as Hname.
  unfold Spec.fragments in *.
  cbn [pointee Spec.qualifier_fragments] in *.
  rewrite app_nil_r in *. rewrite app_assoc, filter_app.
  destruct (filter Spec.nonempty _) as [|x front]; [contradiction|].
  apply concat_of_joined_front.
Qed.

(** ** The white space of the text *)

Section Tidy.

Import Spec Whitespace.

Lemma head_char_app (a b : string) : a <> "" -> head_char (a ++ b) = head_char a.
Proof. destruct a; [contradiction|reflexivity]. Qed.

Lemma last_char_cons (c : ascii) (s : string) : s <> "" -> last_char (String c s) = last_char s.
Proof. destruct s; [contradiction|reflexivity]. Qed.

Lemma last_char_app (a b : string) : b <> "" -> last_char (a ++ b) = last_char b.
Proof.
  intro Hb. induction a as [|c a IH]; [reflexivity|].
  cbn [append]. rewrite last_char_cons; [exact IH|].
  destruct a; [exact Hb|discriminate].
Qed.

(** Two texts without two spaces in a row have none when a space joins
    them, unless the first ends with a space or the second starts with
    one. *)
Lemma no_double_space_join (a b : string) :
  a <> "" -> last_char a <> Some space -> no_double_space a ->
  head_char b <> Some space -> no_double_space b ->
  no_double_space (a ++ " " ++ b).
Proof.
  intros Ha Hlast Hnone Hhead Hb.
  induction a as [|c a IH]; [contradiction|].
  unfold no_double_space in *.
  rewrite occurs_in_cons in Hnone.
  destruct a as [|c' a].
  - cbn [append]. rewrite occurs_in_cons. cbn [Regex.starts_with].
    destruct (Ascii.eqb_spec " " c) as [<-|_]; [now contradiction Hlast|].
    rewrite occurs_in_cons. cbn [Regex.starts_with]. rewrite Ascii.eqb_refl.
    destruct b as [|d b]; [reflexivity|].
    destruct (Ascii.eqb_spec " " d) as [<-|_]; [now contradiction Hhead|exact Hb].
  - cbn [append]. rewrite occurs_in_cons.
    cbn [Regex.starts_with] in Hnone |- *.
    assert (occurs_in "  " (String c' a) = false) as Htail.
    { destruct (Ascii.eqb " " c); [destruct (Ascii.eqb " " c'); [discriminate|]|];
        exact Hnone. }
    assert (occurs_in "  " (String c' (a ++ " " ++ b)) = false) as Hrest.
    { apply IH; [discriminate| |exact Htail].
      rewrite last_char_cons in Hlast; [exact Hlast|discriminate]. }
    destruct (Ascii.eqb " " c); [destruct (Ascii.eqb " " c'); [discriminate|]|];
      exact Hrest.
Qed.

Lemma tidy_join (a b : string) : tidy a -> tidy b -> tidy (a ++ " " ++ b).
Proof.
  intros (Ha & Hhead_a & Hlast_a & Hnone_a) (Hb & Hhead_b & Hlast_b & Hnone_b).
  repeat split.
  - destruct a; [contradiction|discriminate].
  - now rewrite head_char_app.
  - rewrite last_char_app; [|discriminate].
    change (last_char (String " " b) <> Some space). now rewrite last_char_cons.
  - now apply no_double_space_join.
Qed.

Lemma tidy_concat (x : string) (fragments : list string) :
  Forall tidy (x :: fragments) -> tidy (String.concat " " (x :: fragments)).
Proof.
  revert x. induction fragments as [|y fragments IH]; intros x H.
  - now inversion H.
  - apply Forall_cons_iff in H. destruct H as [Hx Hrest].
    change (tidy (x ++ " " ++ String.concat " " (y :: fragments))).
    apply tidy_join; [exact Hx|now apply IH].
Qed.

Lemma tidy_kept (fragments : list string) :
  Forall (fun fragment => fragment = "" \/ tidy fragment) fragments ->
  Forall tidy (filter nonempty fragments).
Proof.
  induction fragments as [|x fragments IH]; intro H; [constructor|].
  apply Forall_cons_iff in H. destruct H as [Hx Hrest].
  cbn [filter]. unfold nonempty at 1.
  destruct (String.eqb_spec x "") as [->|Hne]; cbn [negb]; [now apply IH|].
  constructor; [|now apply IH].
  destruct Hx as [->|Hx]; [contradiction|exact Hx].
Qed.

End Tidy.

(** X16.  Dropping the empty fragments keeps the text tidy: when each
    fragment is empty or has no space at either end and no two spaces in
    a row, the text has no space at either end and no two spaces in a
    row. *)
Theorem declaration_text_is_tidy
    (sm : SourceManager) (function : FunctionDeclPtr)
    (options : Expander.FullFunctionDeclarationExpanderOptions) :
  Forall (fun fragment => fragment = "" \/ Whitespace.tidy fragment)
    (Spec.fragments sm (negb (Expander.ignore_attribute_specifiers options)) function) ->
  Whitespace.tidy (Expander.fully_expand_function_declaration sm function options).
Proof.
  intro Hfragments. rewrite result_parted_spec.
  pose proof (name_is_joined sm (negb (Expander.ignore_attribute_specifiers options))
                function) as Hname.
  apply tidy_kept in Hfragments.
  destruct (filter Spec.nonempty _) as [|x kept]; [contradiction|].
  now apply tidy_concat.
Qed.

(** The method [size] of [Examples.interface_source], whose fragments
    are [[[nodiscard]]], [int], [I::size()], [const], the empty
    ref-qualifier and [noexcept]. *)
Lemma declaration_text_is_tidy_witness :
  let sm := TokenStream.front_end Examples.interface_source in
  Expander.fully_expand_function_declaration sm
    (to_CXXMethodDecl Examples.size_method) Expander.default_options
  = "[[nodiscard]] int I::size() const noexcept"
  /\ Whitespace.tidy
       (Expander.fully_expand_function_declaration sm
          (to_CXXMethodDecl Examples.size_method) Expander.default_options).
Proof.
  cbv zeta. split; [vm_compute; reflexivity|].
  apply (declaration_text_is_tidy
           (TokenStream.front_end Examples.interface_source)
           (to_CXXMethodDecl Examples.size_method) Expander.default_options).
  vm_compute.
  repeat (constructor;
          [first [left; reflexivity
                 |right; repeat split; first [discriminate|reflexivity]]|]).
  constructor.
Defined.

(** ** The override declarations, once more *)

Lemma flat_map_nil {A B : Type} (f : A -> list B) (l : list A) :
  flat_map f l = [] <-> Forall (fun x => f x = []) l.
Proof.
  induction l as [|x l IH]; cbn [flat_map].
  - split; [constructor|reflexivity].
  - split.
    + intro H. apply app_eq_nil in H. destruct H as [Hx Hl].
      constructor; [exact Hx|now apply IH].
    + intro H. apply Forall_cons_iff in H. destruct H as [Hx Hl].
      rewrite Hx. now apply IH.
Qed.

Lemma filter_nil {A : Type} (keep : A -> bool) (l : list A) :
  filter keep l = [] <-> Forall (fun x => keep x = false) l.
Proof.
  induction l as [|x l IH]; cbn [filter].
  - split; [constructor|reflexivity].
  - destruct (keep x) eqn:Hx.
    + split; [discriminate|]. intro H. apply Forall_cons_iff in H. destruct H. congruence.
    + rewrite IH. split; [now constructor|]. intro H. now apply Forall_cons_iff in H.
Qed.

(** X17.  There are no override declarations exactly when no method of
    a base the walk visits and no method of the class is pure virtual. *)
Theorem no_declarations_without_pure_virtuals
    (regex_replace : string -> string -> string) (sm : SourceManager)
    (node : CXXRecordDecl) :
  Extractor.pure_virtual_functions_to_override_declarations regex_replace sm node = []
  <-> Forall
        (fun record =>
           Forall (fun m : CXXMethodDecl => isPure m = false) (methods record))
        (forallBases node ++ [node])%list.
Proof.
  rewrite collected_in_order. unfold Deriver.pure_virtuals, Deriver.visited.
  split.
  - intro H. apply map_eq_nil in H. apply flat_map_nil in H.
    eapply Forall_impl; [|exact H]. intros record Hrecord. now apply filter_nil.
  - intro H.
    assert (flat_map
              (fun record => filter (fun m : CXXMethodDecl => isPure m) (methods record))
              (forallBases node ++ [node]) = []) as ->; [|reflexivity].
    apply flat_map_nil. eapply Forall_impl; [|exact H].
    intros record Hrecord. now apply filter_nil.
Qed.

(** ** Taking the prefix out of a text that has it once *)

Section PrefixOnce.

Import Regex Spec.

Lemma starts_with_none_long (literal s more : string) :
  starts_with literal s = None ->
  String.length literal <= String.length s ->
  starts_with literal (s ++ more) = None.
Proof.
  revert s. induction literal as [|a literal IH]; intros s Hnone Hlen.
  - discriminate.
  - destruct s as [|b s]; [simpl in Hlen; lia|].
    cbn [append starts_with] in *.
    destruct (Ascii.eqb a b); [|reflexivity].
    apply IH; [exact Hnone|simpl in Hlen; lia].
Qed.

Lemma erase_from_without_match (literal : string) (rounds : nat) (s : string) :
  occurs_in literal s = false -> erase_from rounds literal s = s.
Proof.
  revert s. induction rounds as [|rounds IH]; intros s H; [reflexivity|].
  destruct s as [|c s]; [reflexivity|].
  cbn [erase_from]. rewrite occurs_in_cons in H.
  destruct (starts_with literal (String c s)); [discriminate|].
  now rewrite IH.
Qed.

Lemma erase_from_once (front : string) (back : ascii) (literal before behind : string)
    (rounds : nat) :
  literal = front ++ String back EmptyString ->
  String.length (before ++ literal ++ behind) <= rounds ->
  occurs_in literal (before ++ front) = false ->
  occurs_in literal behind = false ->
  erase_from rounds literal (before ++ literal ++ behind) = before ++ behind.
Proof.
  intro Hliteral.
  revert rounds. induction before as [|c before IH]; intros rounds Hrounds Hbefore Hbehind.
  - cbn [append] in *.
    pose proof (starts_with_itself literal behind) as Hhead.
    destruct literal as [|l0 rest]; [destruct front; discriminate|].
    cbn [append] in *.
    destruct rounds as [|rounds]; [simpl in Hrounds; lia|].
    cbn [erase_from]. rewrite Hhead.
    now apply erase_from_without_match.
  - cbn [append] in *.
    destruct rounds as [|rounds]; [simpl in Hrounds; lia|].
    cbn [erase_from].
    rewrite occurs_in_cons in Hbefore.
    destruct (starts_with literal (String c (before ++ front))) eqn:Hhead; [discriminate|].
    assert (starts_with literal (String c (before ++ literal ++ behind)) = None) as ->.
    { replace (String c (before ++ literal ++ behind))
        with (String c (before ++ front) ++ String back behind).
      - apply starts_with_none_long; [exact Hhead|].
        rewrite Hliteral. cbn [String.length]. rewrite !append_length. simpl. lia.
      - rewrite Hliteral. cbn [append]. rewrite !string_app_assoc. reflexivity. }
    f_equal. apply IH; [simpl in Hrounds; lia|exact Hbefore|exact Hbehind].
Qed.

Lemma erase_once (front : string) (back : ascii) (literal before behind : string) :
  literal = front ++ String back EmptyString ->
  occurs_in literal (before ++ front) = false ->
  occurs_in literal behind = false ->
  erase literal (before ++ literal ++ behind) = before ++ behind.
Proof.
  intros Hliteral Hbefore Hbehind.
  assert (erase literal (before ++ literal ++ behind)
          = erase_from (String.length (before ++ literal ++ behind)) literal
              (before ++ literal ++ behind)) as ->.
  { unfold erase. destruct literal; [destruct front; discriminate|reflexivity]. }
  eapply erase_from_once; eauto.
Qed.

End PrefixOnce.

(** X18.  When the qualified name of the record of a method has
    ordinary characters only and the synthesized text has the name
    followed by [::] once, in front of the name of the method, that is,
    the text is [before], the prefix and [behind] with no occurrence of
    the prefix that starts in [before] or lies in [behind], the entry
    appended for the method is [before], [behind] and [" override;"]. *)
Theorem override_declaration_without_the_prefix
    (regex_replace : string -> string -> string) (sm : SourceManager)
    (override_declarations : list string) (m : CXXMethodDecl) (before behind : string) :
  Regex.replaces_matches regex_replace ->
  Regex.literal_of 0 (Deriver.interface_prefix m) = Some (Deriver.interface_prefix m) ->
  Expander.fully_expand_function_declaration sm (to_CXXMethodDecl m)
    Expander.default_options
  = before ++ Deriver.interface_prefix m ++ behind ->
  Spec.occurs_in (Deriver.interface_prefix m)
    (before ++ getParent_getQualifiedNameAsString m ++ ":") = false ->
  Spec.occurs_in (Deriver.interface_prefix m) behind = false ->
  Extractor.append_override_declaration regex_replace sm override_declarations m
  = (override_declarations ++ [(before ++ behind ++ " override;")%string])%list.
Proof.
  intros Hregex Hordinary Htext Hbefore Hbehind.
  unfold Extractor.append_override_declaration.
  fold (Deriver.interface_prefix m).
  rewrite (Hregex _ _ _ Hordinary), Htext.
  rewrite (erase_once (getParent_getQualifiedNameAsString m ++ ":") ":"%char
             (Deriver.interface_prefix m) before behind).
  - now rewrite string_app_assoc.
  - unfold Deriver.interface_prefix. now rewrite string_app_assoc.
  - exact Hbefore.
  - exact Hbehind.
Qed.

(** The method [size] of [Examples.interface_source]: the text is
    [[[nodiscard]] int ], the prefix [I::] and [size() const noexcept]. *)
Lemma override_declaration_without_the_prefix_witness :
  let sm := TokenStream.front_end Examples.interface_source in
  Extractor.append_override_declaration Regex.regex_replace sm [] Examples.size_method
  = ["[[nodiscard]] int " ++ "size() const noexcept" ++ " override;"].
Proof.
  cbv zeta.
  apply (override_declaration_without_the_prefix
           Regex.regex_replace (TokenStream.front_end Examples.interface_source)
           [] Examples.size_method "[[nodiscard]] int " "size() const noexcept"
           regex_replace_replaces_matches).
  - vm_compute. reflexivity.
  - vm_compute. reflexivity.
  - vm_compute. reflexivity.
  - vm_compute. reflexivity.
Defined.

(** ** A declaration without a written return type *)

(** X19.  For a declaration whose return type is not written in the
    source (a constructor, say) the return type is left out: with the
    attributes ignored the text starts with the qualified name and the
    opening parenthesis of the parameter list. *)
Theorem text_without_written_return_type
    (sm : SourceManager) (function : FunctionDeclPtr)
    (options : Expander.FullFunctionDeclarationExpanderOptions) :
  source_range_content_to_string sm (getReturnTypeSourceRange (pointee function)) = "" ->
  Expander.ignore_attribute_specifiers options = true ->
  exists rest,
    Expander.fully_expand_function_declaration sm function options
    = getQualifiedNameAsString (pointee function) ++ "(" ++ rest.
Proof.
  intros Hreturn Hignore. rewrite result_parted_spec, Hignore. cbn [negb].
  unfold Spec.fragments, Spec.function_fragments. cbn [app filter].
  assert (Spec.return_type sm (pointee function) = "") as ->.
  { unfold Spec.return_type, Spec.text_of. now rewrite Hreturn. }
  cbn [Spec.nonempty String.eqb negb].
  rewrite name_and_parameter_list_nonempty.
  rewrite (cut_at_cons " " : forall first rest, String.concat " " (first :: rest) = _).
  unfold Spec.name_and_parameter_list. eexists.
  rewrite !string_app_assoc. reflexivity.
Qed.

(** The constructor of [MoreExamples.constructor_source]. *)
Lemma text_without_written_return_type_witness :
  let sm := TokenStream.front_end MoreExamples.constructor_source in
  let function := to_CXXMethodDecl MoreExamples.constructor_of_P in
  let options := {| Expander.ignore_attribute_specifiers := true |} in
  Expander.fully_expand_function_declaration sm function options = "P::P(int x)"
  /\ exists rest,
      Expander.fully_expand_function_declaration sm function options
      = getQualifiedNameAsString (pointee function) ++ "(" ++ rest.
Proof.
  cbv zeta. split; [vm_compute; reflexivity|].
  apply (text_without_written_return_type
           (TokenStream.front_end MoreExamples.constructor_source)
           (to_CXXMethodDecl MoreExamples.constructor_of_P)
           {| Expander.ignore_attribute_specifiers := true |}).
  - vm_compute. reflexivity.
  - reflexivity.
Defined.

(** ** The part of the text the finder reads *)

Lemma find_from_same_window (s s' : string) (value : ascii) (count : nat) (first : N) :
  (forall j, (first <= j < first + N.of_nat count)%N ->
             String.get (N.to_nat j) s = String.get (N.to_nat j) s') ->
  Std.find_from s first count value = Std.find_from s' first count value.
Proof.
  revert first. induction count as [|count IH]; intros first Hsame; [reflexivity|].
  cbn [Std.find_from]. rewrite <- (Hsame first) by lia.
  destruct (String.get (N.to_nat first) s) as [c|]; [|reflexivity].
  destruct (Ascii.eqb c value); [reflexivity|].
  apply IH. intros j Hj. apply Hsame. lia.
Qed.

(** X20.  The finder reads the text only between the offset of the
    first token behind its start and the offset of the anchor: two
    texts that are long enough and have the same characters there give
    the same outcome. *)
Theorem finder_reads_the_text_between_the_offsets_only
    (cpp_file_content other_content : string) (record : CXXRecordDecl)
    (sm : SourceManager) (tok : Token) :
  findNextToken sm (Outcomes.start_location record) = Some tok ->
  (Outcomes.end_offset_of sm tok <= Std.size cpp_file_content)%N ->
  (Outcomes.end_offset_of sm tok <= Std.size other_content)%N ->
  (forall j,
      (Outcomes.begin_offset_of sm tok <= j < Outcomes.end_offset_of sm tok)%N ->
      String.get (N.to_nat j) cpp_file_content = String.get (N.to_nat j) other_content) ->
  Finder.find_suitable_place_in_class_for_public_method cpp_file_content record sm
  = Finder.find_suitable_place_in_class_for_public_method other_content record sm.
Proof.
  intros Hnext Hsize Hsize' Hsame.
  unfold Finder.find_suitable_place_in_class_for_public_method.
  rewrite !find_unfolded, Hnext.
  destruct (isValid (getLocation tok)); [|reflexivity].
  destruct (N.leb_spec (Outcomes.begin_offset_of sm tok) (Outcomes.end_offset_of sm tok))
    as [Hle|Hgt]; [|reflexivity].
  destruct (N.leb_spec (Outcomes.end_offset_of sm tok) (Std.size cpp_file_content))
    as [_|Hgt]; [|lia].
  destruct (N.leb_spec (Outcomes.end_offset_of sm tok) (Std.size other_content))
    as [_|Hgt]; [|lia].
  cbn [andb]. cbv zeta.
  rewrite (find_from_same_window cpp_file_content other_content); [reflexivity|].
  intros j Hj. apply Hsame. rewrite N2Nat.id in Hj. lia.
Qed.

(** The class of [Examples.declared_method_source], read from the
    lexer of that text, and a text that differs behind offset 28: the
    finder reads the offsets 21 to 24. *)
Lemma finder_reads_the_text_between_the_offsets_only_witness :
  let content := Examples.declared_method_source in
  let other := MoreExamples.declared_method_source_changed in
  let record := Examples.declared_method_class in
  let sm := TokenStream.front_end content in
  content <> other
  /\ Finder.find_suitable_place_in_class_for_public_method content record sm
     = Finder.find_suitable_place_in_class_for_public_method other record sm.
Proof.
  cbv zeta. split; [vm_compute; discriminate|].
  apply (finder_reads_the_text_between_the_offsets_only
           Examples.declared_method_source MoreExamples.declared_method_source_changed
           Examples.declared_method_class
           (TokenStream.front_end Examples.declared_method_source)
           {| getKind := semi; getLocation := TokenStream.location_at 21 |}).
  - vm_compute. reflexivity.
  - vm_compute. discriminate.
  - vm_compute. discriminate.
  - change (forall j, (21 <= j < 25)%N ->
                      String.get (N.to_nat j) Examples.declared_method_source
                      = String.get (N.to_nat j) MoreExamples.declared_method_source_changed).
    intros j Hj.
    assert (j = 21 \/ j = 22 \/ j = 23 \/ j = 24)%N as Hcases by lia.
    destruct Hcases as [-> | [-> | [-> | ->]]]; vm_compute; reflexivity.
Defined.

(** The class of [MoreExamples.two_chains_source]: the first chain is
    [a] and [b], the later [d] is not looked at, and the place is the
    start of the line behind [b]. *)
Lemma first_chain_of_two :
  let content := MoreExamples.two_chains_source in
  let record := MoreExamples.two_chains_class in
  Finder.find_location_after_last_public_method_in_the_first_chain record
  = Some (getEndLoc MoreExamples.method_b)
  /\ Finder.find_suitable_place_in_class_for_public_method
       content record (TokenStream.front_end content)
     = Returns {| Finder.offset := 35; Finder.is_public_section_needed := false |}.
Proof. cbv zeta. split; vm_compute; reflexivity. Qed.

(** * The pass of [regex_replace], cut by cut *)

Section LeftmostCut.

Import Regex Spec Deriver Cut.

Lemma all_but_last_spec (s : string) :
  s <> EmptyString -> exists back, s = all_but_last s ++ String back EmptyString.
Proof.
  induction s as [|c s IH]; [contradiction|]. intros _.
  destruct s as [|c' s].
  - exists c. reflexivity.
  - destruct IH as (back & Hback); [discriminate|].
    exists back.
    change (String c (String c' s)
            = String c (all_but_last (String c' s) ++ String back EmptyString)).
    f_equal. exact Hback.
Qed.

Lemma all_but_last_length (s : string) :
  s <> EmptyString -> String.length s = S (String.length (all_but_last s)).
Proof.
  intro Hs. destruct (all_but_last_spec s Hs) as (back & Hback).
  rewrite Hback at 1. rewrite append_length. simpl. lia.
Qed.

Lemma starts_with_length (literal s behind : string) :
  starts_with literal s = Some behind ->
  String.length s = String.length literal + String.length behind.
Proof.
  intro H. apply starts_with_some in H. rewrite H. apply append_length.
Qed.

Lemma occurs_in_short (literal s : string) :
  String.length s < String.length literal -> occurs_in literal s = false.
Proof.
  induction s as [|c s IH]; intro Hlen.
  - destruct literal; [simpl in Hlen; lia|reflexivity].
  - rewrite occurs_in_cons.
    destruct (starts_with literal (String c s)) as [behind|] eqn:Hhead.
    + apply starts_with_length in Hhead. lia.
    + apply IH. simpl in Hlen. lia.
Qed.

Variable literal : string.
Hypothesis literal_not_empty : literal <> EmptyString.

(** With rounds enough for the text the number of rounds does not
    matter. *)
Lemma erase_from_enough (rounds rounds' : nat) (s : string) :
  String.length s <= rounds -> String.length s <= rounds' ->
  erase_from rounds literal s = erase_from rounds' literal s.
Proof.
  revert rounds' s. induction rounds as [|rounds IH]; intros rounds' s Hr Hr'.
  - destruct s; [|simpl in Hr; lia]. now destruct rounds'.
  - destruct s as [|c s]; [now destruct rounds'|].
    destruct rounds' as [|rounds']; [simpl in Hr'; lia|].
    cbn [erase_from].
    destruct (starts_with literal (String c s)) as [behind|] eqn:Hhead.
    + apply starts_with_length in Hhead.
      assert (0 < String.length literal) by (destruct literal; [contradiction|simpl; lia]).
      apply IH; lia.
    + f_equal. apply IH; simpl in *; lia.
Qed.

Lemma erase_unfold (s : string) :
  erase literal s = erase_from (String.length s) literal s.
Proof. unfold erase. destruct literal; [contradiction|reflexivity]. Qed.

Lemma erase_match (behind : string) :
  erase literal (literal ++ behind) = erase literal behind.
Proof.
  rewrite !erase_unfold.
  pose proof (starts_with_itself literal behind) as Hhead.
  pose proof (append_length literal behind) as Hlen.
  destruct (literal ++ behind) as [|c s] eqn:Htext.
  - destruct literal; [contradiction|discriminate].
  - cbn [String.length erase_from]. rewrite Hhead.
    assert (0 < String.length literal) by (destruct literal; [contradiction|simpl; lia]).
    apply erase_from_enough; simpl in Hlen; lia.
Qed.

Lemma erase_char (c : ascii) (s : string) :
  starts_with literal (String c s) = None ->
  erase literal (String c s) = String c (erase literal s).
Proof.
  intro Hhead. rewrite !erase_unfold. cbn [String.length erase_from]. now rewrite Hhead.
Qed.

Lemma erase_without_match (s : string) :
  occurs_in literal s = false -> erase literal s = s.
Proof. intro H. rewrite erase_unfold. now apply erase_from_without_match. Qed.

(** The pass copies a piece in which no occurrence starts, leaves out
    the literal behind it and goes on behind the literal. *)
Lemma erase_through (before behind : string) :
  none_starts_in literal before ->
  erase literal (before ++ literal ++ behind) = before ++ erase literal behind.
Proof.
  unfold none_starts_in.
  induction before as [|c before IH]; intro Hnone.
  - apply erase_match.
  - cbn [append] in *. rewrite occurs_in_cons in Hnone.
    destruct (starts_with literal (String c (before ++ all_but_last literal)))
      eqn:Hhead; [discriminate|].
    destruct (all_but_last_spec literal literal_not_empty) as (back & Hback).
    rewrite erase_char.
    + f_equal. now apply IH.
    + replace (String c (before ++ literal ++ behind))
        with (String c (before ++ all_but_last literal) ++ String back behind).
      * apply starts_with_none_long; [exact Hhead|].
        rewrite (all_but_last_length literal literal_not_empty).
        cbn [String.length]. rewrite append_length. lia.
      * rewrite Hback at 2. cbn [append]. rewrite !string_app_assoc. reflexivity.
Qed.

(** The pieces of a cut from left to right, put together, are what the
    pass leaves of the text. *)
Lemma erase_of_leftmost_cut (pieces : list string) (text : string) :
  leftmost_cut literal text pieces ->
  erase literal text = put_together pieces.
Proof.
  revert text. induction pieces as [|piece pieces IH]; intros text [Htext Hleft].
  - contradiction.
  - destruct pieces as [|next pieces].
    + cbn in Htext, Hleft. subst text. now apply erase_without_match.
    + destruct Hleft as [Hnone Hrest].
      rewrite Htext, cut_at_cons, erase_through by exact Hnone.
      rewrite (IH (cut_at literal (next :: pieces))); [reflexivity|].
      split; [reflexivity|exact Hrest].
Qed.

Lemma leftmost_not_nil (pieces : list string) : leftmost literal pieces -> pieces <> [].
Proof. destruct pieces; [contradiction|discriminate]. Qed.

(** Every text has a cut from left to right. *)
Lemma leftmost_cut_exists (rounds : nat) (text : string) :
  String.length text <= rounds ->
  exists pieces, leftmost_cut literal text pieces.
Proof.
  revert text. induction rounds as [|rounds IH]; intros text Hlen.
  - destruct text; [|simpl in Hlen; lia].
    exists [EmptyString]. split; [reflexivity|].
    cbn. destruct literal; [contradiction|reflexivity].
  - destruct text as [|c text].
    + exists [EmptyString]. split; [reflexivity|].
      cbn. destruct literal; [contradiction|reflexivity].
    + destruct (starts_with literal (String c text)) as [behind|] eqn:Hhead.
      * pose proof (starts_with_some _ _ _ Hhead) as Htext.
        pose proof (starts_with_length _ _ _ Hhead) as Hlength.
        assert (0 < String.length literal)
          by (destruct literal; [contradiction|simpl; lia]).
        destruct (IH behind) as (pieces & Hcut & Hleft); [simpl in *; lia|].
        destruct pieces as [|piece pieces]; [contradiction|].
        exists (EmptyString :: piece :: pieces). split.
        -- rewrite Htext, Hcut. reflexivity.
        -- split; [|exact Hleft].
           unfold none_starts_in. cbn [append]. apply occurs_in_short.
           rewrite (all_but_last_length literal literal_not_empty). lia.
      * destruct (IH text) as (pieces & Hcut & Hleft); [simpl in Hlen; lia|].
        destruct pieces as [|piece pieces]; [contradiction|].
        exists (String c piece :: pieces). split.
        -- rewrite cut_at_String. now rewrite <- Hcut.
        -- rewrite Hcut, cut_at_cons in Hhead.
           destruct pieces as [|next pieces].
           ++ change (occurs_in literal piece = false) in Hleft.
              change (occurs_in literal (String c piece) = false).
              rewrite occurs_in_cons.
              rewrite string_app_nil_r in Hhead. now rewrite Hhead.
           ++ destruct Hleft as [Hnone Hrest]. split; [|exact Hrest].
              unfold none_starts_in in *. cbn [append]. rewrite occurs_in_cons.
              destruct (all_but_last_spec literal literal_not_empty) as (back & Hback).
              assert (starts_with literal (String c (piece ++ all_but_last literal)) = None)
                as ->; [|exact Hnone].
              apply (starts_with_none_app _ _
                       (String back (cut_at literal (next :: pieces)))).
              replace (String c (piece ++ all_but_last literal)
                         ++ String back (cut_at literal (next :: pieces)))
                with (String c (piece ++ literal ++ cut_at literal (next :: pieces)));
                [exact Hhead|].
              rewrite Hback at 1. cbn [append]. rewrite !string_app_assoc. reflexivity.
Qed.

End LeftmostCut.

(** C5, amended.  The override declarations are, in order, the entries of
    the pure virtual methods of the walk, and the entry of a method ends
    with [" override;"].  When the qualified name of the record of the
    method has ordinary characters only, the text before the suffix is
    what one pass from left to right leaves of the synthesized text:
    the text has a cut at the occurrences of the name followed by [::]
    in which each cut is at the first occurrence in what is left of the
    text, and the entry is the pieces of any such cut put together and
    the suffix. *)
Theorem override_declaration_suffix_and_leftmost_cut
    (regex_replace : string -> string -> string) (sm : SourceManager)
    (node : CXXRecordDecl) :
  Regex.replaces_matches regex_replace ->
  Extractor.pure_virtual_functions_to_override_declarations regex_replace sm node
  = map (Deriver.override_declaration regex_replace sm) (Deriver.pure_virtuals node)
  /\ forall m : CXXMethodDecl,
      Spec.ends_with " override;" (Deriver.override_declaration regex_replace sm m) = true
      /\ (Regex.literal_of 0 (Deriver.interface_prefix m) = Some (Deriver.interface_prefix m) ->
          (exists pieces,
              Cut.leftmost_cut (Deriver.interface_prefix m) (Deriver.synthesized sm m) pieces)
          /\ forall pieces,
              Cut.leftmost_cut (Deriver.interface_prefix m) (Deriver.synthesized sm m) pieces ->
              Deriver.override_declaration regex_replace sm m
              = Deriver.put_together pieces ++ " override;").
Proof.
  intro Hregex. split; [apply collected_in_order|].
  intro m. unfold Deriver.override_declaration.
  split; [apply ends_with_app|].
  intro Hordinary. rewrite (Hregex _ _ _ Hordinary).
  split.
  - apply (leftmost_cut_exists _ (interface_prefix_not_empty m)
             (String.length (Deriver.synthesized sm m))). lia.
  - intros pieces Hcut.
    now rewrite (erase_of_leftmost_cut _ (interface_prefix_not_empty m) pieces _ Hcut).
Qed.

(** The interface of [Examples.interface_source]: the synthesized text
    [[[nodiscard]] int I::size() const noexcept] is cut at [I::] into
    two pieces, and the entry has [size] without [I::]. *)
Lemma override_declaration_suffix_and_leftmost_cut_witness :
  let sm := TokenStream.front_end Examples.interface_source in
  let m := Examples.size_method in
  let pieces := ["[[nodiscard]] int "; "size() const noexcept"] in
  Regex.replaces_matches Regex.regex_replace
  /\ Extractor.pure_virtual_functions_to_override_declarations
       Regex.regex_replace sm Examples.interface
     = ["[[nodiscard]] int size() const noexcept override;"]
  /\ Extractor.pure_virtual_functions_to_override_declarations
       Regex.regex_replace sm Examples.interface
     = map (Deriver.override_declaration Regex.regex_replace sm)
         (Deriver.pure_virtuals Examples.interface)
  /\ Cut.leftmost_cut (Deriver.interface_prefix m) (Deriver.synthesized sm m) pieces
  /\ Deriver.override_declaration Regex.regex_replace sm m
     = Deriver.put_together pieces ++ " override;".
Proof.
  cbv zeta.
  pose proof (override_declaration_suffix_and_leftmost_cut
                Regex.regex_replace (TokenStream.front_end Examples.interface_source)
                Examples.interface regex_replace_replaces_matches) as [Hmap Hentry].
  split; [exact regex_replace_replaces_matches|].
  split; [vm_compute; reflexivity|].
  split; [exact Hmap|].
  assert (Cut.leftmost_cut (Deriver.interface_prefix Examples.size_method)
            (Deriver.synthesized (TokenStream.front_end Examples.interface_source)
               Examples.size_method)
            ["[[nodiscard]] int "; "size() const noexcept"]) as Hcut.
  { split; [vm_compute; reflexivity|]. split; vm_compute; reflexivity. }
  split; [exact Hcut|].
  destruct (Hentry Examples.size_method) as [_ Hpinned].
  apply (proj2 (Hpinned eq_refl)). exact Hcut.
Defined.

(** A name that overlaps itself: with the record [A::B::A] and the text
    [void A::B::A::B::A::f()] the cut from left to right is behind
    [void ], and the entry is [void B::A::f() override;]. *)
Lemma leftmost_cut_of_an_overlapping_name :
  let text := "void A::B::A::B::A::f()" in
  Cut.leftmost_cut "A::B::A::" text ["void "; "B::A::f()"]
  /\ ~ Cut.leftmost_cut "A::B::A::" text ["void A::B::"; "f()"]
  /\ Regex.regex_replace text "A::B::A::" = "void B::A::f()".
Proof.
  cbv zeta. split; [|split].
  - split; [reflexivity|]. split; vm_compute; reflexivity.
  - intros [_ [Hnone _]]. vm_compute in Hnone. discriminate.
  - vm_compute. reflexivity.
Qed.
